(** * WHIP server (pkg/whip/server.go): session lifecycle and HTTP endpoints

    A shallow embedding of [WHIPServer]: the handler registry
    ([map[string]*whipHandler]), [createStream] with its two background
    goroutines, the administrative relay operations and the HTTP handlers
    installed by [Start].

    Conventions.
    - A Go [string] is a sequence of bytes: Rocq's [string] (8-bit [ascii]).
    - A Go [error] is [option error]; [None] is [nil].
    - A pointer or func value that may be [nil] is an [option].
    - A [context] with a deadline is visible only through the outcome of the
      blocking call it is passed to: an expired deadline is an error result.
    - The collaborators (the media handler, [onPublish], the RPC client, the
      SDP fragment parser, the id generator) are oracles carried in records.
    - Goroutines are kept as a tree ([Task]); [schedules] enumerates every
      interleaving, and the theorems quantify over all of them. *)

From Stdlib Require Import ZArith Ascii String List Lia Bool.
From stdpp Require Import base option list strings gmap fin_maps.

Local Open Scope string_scope.

(** ** Errors *)

(** Error values up to identity ([err == psrpc.ErrNoResponse] compares
    interface values).  The three sentinels are the ones server.go names;
    [ErrOther n] is any other error value. *)
Inductive error : Type :=
| ErrIngressNotFound            (* errors.ErrIngressNotFound *)
| ErrInvalidWHIPRestartRequest  (* errors.ErrInvalidWHIPRestartRequest *)
| ErrNoResponse                 (* psrpc.ErrNoResponse *)
| ErrOther (n : nat).

#[global] Instance error_eq_dec : EqDecision error.
Proof. solve_decision. Defined.

(** ** Collaborator types *)

Definition StreamKind := string.                    (* types.StreamKind *)
Definition MimeTypes := option (gmap string string). (* map[types.StreamKind]string, nil = None *)
Definition Params := nat.                            (* *params.Params, opaque *)
Definition Stats := nat.                             (* *stats.LocalMediaStatsGatherer, non-nil *)
Definition WriteCloser := nat.                       (* io.WriteCloser, opaque *)

(** The result of a blocking call that may also never come back. *)
Inductive blocking (A : Type) : Type :=
| Returns (a : A)
| Blocks.
Arguments Returns {A} a.
Arguments Blocks {A}.

(** The behaviour of one [*whipHandler] (defined outside server.go). *)
Module Handler.
Record t : Type := mk {
  (* h.Init(ctx, p, sdpOffer) (string, error) *)
  Init : Params -> string -> string * option error;
  (* h.Start(ctx) (map[types.StreamKind]string, error) *)
  Start : MimeTypes * option error;
  (* h.WaitForSessionEnd(ctx) error; unbounded *)
  WaitForSessionEnd : blocking (option error);
  (* h.AssociateRelay(kind, token, w) error *)
  AssociateRelay : StreamKind -> string -> WriteCloser -> option error;
}.
End Handler.

(** [func(mimeTypes map[types.StreamKind]string, err error) *stats.LocalMediaStatsGatherer] *)
Definition ReadyFunc := MimeTypes -> option error -> option Stats.

(** What [onPublish] hands back: the session parameters, [ready], [ended]
    and an error.  [ended] is a [func(error)]; only whether it is [nil]
    matters here. *)
Record Published : Type := mkPublished {
  pub_params : Params;
  pub_ready : option ReadyFunc;
  pub_ended : option unit;
  pub_err : option error;
}.

(** ** Observable actions *)

Inductive Event : Type :=
| EvOnPublish (streamKey resourceId : string)
| EvInit (sdpOffer : string)
| EvReady (mimeTypes : MimeTypes) (err : option error)   (* ready(mimeTypes, err) *)
| EvSetMediaStatsGatherer (stats : Stats)
| EvRegister (resourceId : string) (h : Handler.t)       (* s.handlers[resourceId] = h *)
| EvDelete (resourceId : string)                         (* delete(s.handlers, resourceId) *)
| EvStart
| EvWaitForSessionEnd
| EvEnded (err : option error)                           (* ended(err) *)
| EvLog (msg : string)
| EvPanic
| EvHandlerAssociateRelay (kind : StreamKind) (token : string)
| EvHandlerDissociateRelay (kind : StreamKind)
| EvHandlerClose
| EvDeleteWHIPResource (resourceId streamKey : string)
| EvICERestartWHIPResource (resourceId streamKey ufrag pwd : string)
| EvHandleError (err : error).

(** ** Goroutines *)

(** The body of a function or goroutine, as the tree of what it does. *)
Inductive Task : Type :=
| Ret                            (* the function returns *)
| Do (e : Event) (k : Task)      (* one action, then [k] *)
| Go (child : Task) (k : Task)   (* go func() { child }(); k *)
| Halt.                          (* blocked for ever, or unwound by a panic *)

Fixpoint interleave {A} (l1 : list A) : list A -> list (list A) :=
  fix inner (l2 : list A) : list (list A) :=
    match l1, l2 with
    | [], _ => [l2]
    | _, [] => [l1]
    | a :: l1', b :: l2' =>
        (map (cons a) (interleave l1' l2) ++ map (cons b) (inner l2'))%list
    end.

(** Every order in which the actions of a task and of the goroutines it
    starts can be observed. *)
Fixpoint schedules (t : Task) : list (list Event) :=
  match t with
  | Ret => [[]]
  | Halt => [[]]
  | Do e k => map (cons e) (schedules k)
  | Go child k =>
      flat_map (fun tc => flat_map (fun tk => interleave tc tk) (schedules k))
               (schedules child)
  end.

(** The actions of the calling goroutine alone: what has happened when the
    function returns to its caller. *)
Fixpoint main_thread (t : Task) : list Event :=
  match t with
  | Ret => []
  | Halt => []
  | Do e k => e :: main_thread k
  | Go _ k => main_thread k
  end.

(** A task with the actions outside [P] erased. *)
Fixpoint restrict (P : Event -> bool) (t : Task) : Task :=
  match t with
  | Ret => Ret
  | Halt => Halt
  | Do e k => if P e then Do e (restrict P k) else restrict P k
  | Go child k => Go (restrict P child) (restrict P k)
  end.

(** The number of [P]-actions anywhere in a task. *)
Fixpoint occurrences (P : Event -> bool) (t : Task) : nat :=
  match t with
  | Ret => 0
  | Halt => 0
  | Do e k => (if P e then 1 else 0) + occurrences P k
  | Go child k => occurrences P child + occurrences P k
  end.

(** [l1] and [l2] merged into [l], each keeping its own order. *)
Inductive Interleaved {A} : list A -> list A -> list A -> Prop :=
| Interleaved_nil : Interleaved [] [] []
| Interleaved_left a l1 l2 l :
    Interleaved l1 l2 l -> Interleaved (a :: l1) l2 (a :: l)
| Interleaved_right b l1 l2 l :
    Interleaved l1 l2 l -> Interleaved l1 (b :: l2) (b :: l).

(** [ordered P Q seen tr]: every [Q]-action of [tr] has a [P]-action
    strictly before it ([seen] says that one lies before [tr] already). *)
Fixpoint ordered (P Q : Event -> bool) (seen : bool) (tr : list Event) : bool :=
  match tr with
  | [] => true
  | e :: tr' => (if Q e then seen else true) && ordered P Q (seen || P e) tr'
  end.

Definition precedes (P Q : Event -> bool) (tr : list Event) : Prop :=
  forall l1 q l2, tr = (l1 ++ q :: l2)%list -> Q q = true ->
    exists p, In p l1 /\ P p = true.

Definition count (P : Event -> bool) (tr : list Event) : nat :=
  length (List.filter P tr).

(** Recognisers for the actions the lifecycle properties speak of. *)
Definition is_ready (e : Event) : bool :=
  match e with EvReady _ _ => true | _ => false end.
Definition is_ready_error (e : Event) : bool :=
  match e with EvReady _ (Some _) => true | _ => false end.
Definition is_ended (e : Event) : bool :=
  match e with EvEnded _ => true | _ => false end.
Definition is_register (e : Event) : bool :=
  match e with EvRegister _ _ => true | _ => false end.
Definition is_delete (e : Event) : bool :=
  match e with EvDelete _ => true | _ => false end.
Definition is_start (e : Event) : bool :=
  match e with EvStart => true | _ => false end.
Definition is_registry (e : Event) : bool := is_register e || is_delete e.
Definition is_rpc (e : Event) : bool :=
  match e with
  | EvDeleteWHIPResource _ _ | EvICERestartWHIPResource _ _ _ _ => true
  | _ => false
  end.
Definition is_handleError (e : Event) : bool :=
  match e with EvHandleError _ => true | _ => false end.
Definition is_onPublish (e : Event) : bool :=
  match e with EvOnPublish _ _ => true | _ => false end.

(** ** The server *)

Inductive rpc_result (A : Type) : Type :=
| RpcOk (resp : A)
| RpcErr (e : error).
Arguments RpcOk {A} resp.
Arguments RpcErr {A} e.

(** [rpc.IngressHandlerClient]: the two calls server.go makes.  The routing
    topic is the resource id; a request carries the remaining fields. *)
Record IngressHandlerClient : Type := mkClient {
  (* DeleteWHIPResource(ctx, topic, &{ResourceId, StreamKey}, timeout) *)
  DeleteWHIPResource : string -> string -> string -> option error;
  (* ICERestartWHIPResource(ctx, topic, &{UserFragment, Password, ResourceId,
     StreamKey}, timeout): the TrickleIceSdpfrag of the response, or an error *)
  ICERestartWHIPResource :
    string -> string -> string -> string -> string -> rpc_result string;
}.

Record WHIPServer : Type := mkServer {
  onPublish : string -> string -> Handler.t -> Published;
  rpcClient : IngressHandlerClient;
  handlers : gmap string (option Handler.t);
  (* the next results of utils.NewGuid(utils.WHIPResourcePrefix) and of
     NewWHIPHandler(s.webRTCConfig) *)
  NewGuid : string;
  NewWHIPHandler : Handler.t;
}.

(** The effect of one action on the registry. *)
Definition apply_event (reg : gmap string (option Handler.t)) (e : Event)
  : gmap string (option Handler.t) :=
  match e with
  | EvRegister id h => <[id := Some h]> reg
  | EvDelete id => delete id reg
  | _ => reg
  end.

Definition run_registry (reg : gmap string (option Handler.t)) (tr : list Event)
  : gmap string (option Handler.t) :=
  fold_left apply_event tr reg.

(** How a call comes back to its caller. *)
Inductive Outcome (A : Type) : Type :=
| Returned (a : A)
| Panicked.
Arguments Returned {A} a.
Arguments Panicked {A}.

(** *** createStream *)

(** The second goroutine (server.go 389-406): wait for the end of the
    session, then the deferred cleanup. *)
Definition endTask (h : Handler.t) (resourceId : string) (ended : option unit) : Task :=
  Do EvWaitForSessionEnd
    match Handler.WaitForSessionEnd h with
    | Blocks => Halt
    | Returns err =>
        Do (EvDelete resourceId)
          (let k := match ended with
                    | Some _ => Do (EvEnded err) Ret
                    | None => Ret
                    end in
           match err with
           | Some _ => Do (EvLog "WHIP session failed") k
           | None => k
           end)
    end.

(** The function deferred at server.go 364-375; it exists only when
    [ready != nil]. *)
Definition startDeferred (resourceId : string) (ready : option ReadyFunc)
    (mimeTypes : MimeTypes) (err : option error) (k : Task) : Task :=
  match ready with
  | Some ready =>
      Do (EvReady mimeTypes err)
        (let k := match err with
                  | Some _ => Do (EvDelete resourceId) k
                  | None => k
                  end in
         match ready mimeTypes err with
         | Some stats => Do (EvSetMediaStatsGatherer stats) k
         | None => k
         end)
  | None => k
  end.

(** The first goroutine (server.go 357-407). *)
Definition startTask (h : Handler.t) (resourceId : string)
    (ready : option ReadyFunc) (ended : option unit) : Task :=
  Do (EvRegister resourceId h)
    (Do EvStart
       (let '(mimeTypes, err) := Handler.Start h in
        match err with
        | Some _ => startDeferred resourceId ready mimeTypes err Ret
        | None =>
            Do (EvLog "all tracks ready")
              (Go (endTask h resourceId ended)
                  (startDeferred resourceId ready mimeTypes err Ret))
        end)).

(** [createStream(streamKey, sdpOffer) (string, string, error)]: what the
    caller gets back, and everything the call sets in motion. *)
Definition createStream (s : WHIPServer) (streamKey sdpOffer : string)
  : Outcome (string * string * option error) * Task :=
  let resourceId := NewGuid s in
  let h := NewWHIPHandler s in
  let pub := onPublish s streamKey resourceId h in
  match pub_err pub with
  | Some err => (Returned ("", "", Some err), Do (EvOnPublish streamKey resourceId) Ret)
  | None =>
      let '(sdpResponse, err) := Handler.Init h (pub_params pub) sdpOffer in
      match err with
      | Some e =>
          match pub_ready pub with
          | Some ready =>
              (Returned ("", "", Some e),
               Do (EvOnPublish streamKey resourceId)
                 (Do (EvInit sdpOffer) (Do (EvReady None (Some e)) Ret)))
          | None =>
              (* calling a nil func value *)
              (Panicked,
               Do (EvOnPublish streamKey resourceId)
                 (Do (EvInit sdpOffer) (Do EvPanic Halt)))
          end
      | None =>
          (Returned (resourceId, sdpResponse, None),
           Do (EvOnPublish streamKey resourceId)
             (Do (EvInit sdpOffer)
                (Go (startTask h resourceId (pub_ready pub) (pub_ended pub)) Ret)))
      end
  end.

(** *** The registry operations of the server *)

(** [NewWHIPServer(rpcClient)]: an empty registry. *)
Definition NewWHIPServer (rpc : IngressHandlerClient)
    (onPublish : string -> string -> Handler.t -> Published)
    (guid : string) (h : Handler.t) : WHIPServer :=
  mkServer onPublish rpc ∅ guid h.

(** [h, ok := s.handlers[resourceId]] followed by [ok && h != nil]. *)
Definition lookupHandler (s : WHIPServer) (resourceId : string) : option Handler.t :=
  match handlers s !! resourceId with
  | Some (Some h) => Some h
  | _ => None
  end.

Definition CloseHandler (s : WHIPServer) (resourceId : string) : unit * list Event :=
  match lookupHandler s resourceId with
  | Some h => (tt, [EvHandlerClose])
  | None => (tt, [])
  end.

Definition AssociateRelay (s : WHIPServer) (resourceId : string)
    (kind : StreamKind) (token : string) (w : WriteCloser)
  : option error * list Event :=
  match lookupHandler s resourceId with
  | Some h =>
      let err := Handler.AssociateRelay h kind token w in
      match err with
      | Some e => (Some e, [EvHandlerAssociateRelay kind token])
      | None => (None, [EvHandlerAssociateRelay kind token])
      end
  | None => (Some ErrIngressNotFound, [])
  end.

(** [DissociateRelay] is declared without a result. *)
Definition DissociateRelay (s : WHIPServer) (resourceId : string)
    (kind : StreamKind) : unit * list Event :=
  match lookupHandler s resourceId with
  | Some h => (tt, [EvHandlerDissociateRelay kind])
  | None => (tt, [])
  end.

Definition IsIdle (s : WHIPServer) : bool :=
  bool_decide (size (handlers s) = 0).

(** The error a caller of an operation can observe: the [error] result when
    the Go signature has one, nothing when the function has no result. *)
Class Fallible (R : Type) := failure : R -> option error.
#[global] Instance fallible_error : Fallible (option error) := fun e => e.
#[global] Instance fallible_unit : Fallible unit := fun _ => None.

(** ** Library functions used by the endpoints *)

(** [strings.TrimPrefix] *)
Definition HasPrefix (s pre : string) : bool := String.prefix pre s.

Definition TrimPrefix (s pre : string) : string :=
  if HasPrefix s pre
  then substring (String.length pre) (String.length s - String.length pre) s
  else s.

(** [hash/crc32], IEEE polynomial, in the shape of the generic
    implementation: a table entry is eight shift steps of the index, and one
    byte of input is one table look-up. *)
Module crc32.
Definition IEEE : Z := 0xedb88320.

Definition shift (crc : Z) : Z :=
  if Z.testbit crc 0 then Z.lxor (Z.shiftr crc 1) IEEE else Z.shiftr crc 1.

Definition simpleTable (i : Z) : Z := Nat.iter 8 shift i.

Definition byte_of (c : ascii) : Z := Z.of_N (N_of_ascii c).

Fixpoint simpleUpdate (crc : Z) (p : string) : Z :=
  match p with
  | EmptyString => crc
  | String v p' =>
      simpleUpdate
        (Z.lxor (simpleTable (Z.lxor (Z.land crc 0xff) (byte_of v))) (Z.shiftr crc 8))
        p'
  end.

(** [crc = ^crc; ...; return ^crc] on a [uint32] *)
Definition ChecksumIEEE (data : string) : Z :=
  Z.lxor (simpleUpdate (Z.lxor 0 0xffffffff) data) 0xffffffff.
End crc32.

(** [fmt.Sprintf("%08x", v)] for a [uint32] [v]: eight digits always
    suffice, so the result is the eight low nibbles, most significant first. *)
Definition hexdigit (d : Z) : ascii :=
  nth (Z.to_nat d) (list_ascii_of_string "0123456789abcdef") "0"%char.

Fixpoint hex_digits (n : nat) (v : Z) : string :=
  match n with
  | O => ""
  | S n' => hex_digits n' (v / 16) ++ String (hexdigit (v mod 16)) ""
  end.

Definition Sprintf_08x (v : Z) : string := hex_digits 8 v.

(** Reading a string of lowercase hexadecimal digits back. *)
Definition hexval (c : ascii) : option Z :=
  let n := Z.of_N (N_of_ascii c) in
  if (48 <=? n)%Z && (n <=? 57)%Z then Some (n - 48)%Z
  else if (97 <=? n)%Z && (n <=? 102)%Z then Some (n - 87)%Z
  else None.

Fixpoint parse_hex_from (acc : Z) (s : string) : option Z :=
  match s with
  | EmptyString => Some acc
  | String c s' =>
      match hexval c with
      | Some d => parse_hex_from (16 * acc + d)%Z s'
      | None => None
      end
  end.

Definition parse_hex (s : string) : option Z := parse_hex_from 0 s.

(** [fmt.Sprintf("/%s/%s/%s", a, b, c)] *)
Definition Sprintf_path3 (a b c : string) : string :=
  "/" ++ a ++ "/" ++ b ++ "/" ++ c.

(** [net/http] status codes *)
Definition StatusOK : nat := 200.
Definition StatusCreated : nat := 201.
Definition StatusNoContent : nat := 204.
Definition StatusInternalServerError : nat := 500.

(** [textproto.CanonicalMIMEHeaderKey]: a key holding a byte that is not a
    token byte is left as it is; otherwise the first letter and every letter
    after a hyphen are upper case and the others lower case. *)
Definition validHeaderFieldByte (c : ascii) : bool :=
  let n := nat_of_ascii c in
  ((48 <=? n)%nat && (n <=? 57)%nat) || ((65 <=? n)%nat && (n <=? 90)%nat)
  || ((97 <=? n)%nat && (n <=? 122)%nat)
  || existsb (Ascii.eqb c) (list_ascii_of_string "!#$%&'*+-.^_`|~").

Definition toUpper (c : ascii) : ascii :=
  let n := nat_of_ascii c in
  if (97 <=? n)%nat && (n <=? 122)%nat then ascii_of_nat (n - 32) else c.

Definition toLower (c : ascii) : ascii :=
  let n := nat_of_ascii c in
  if (65 <=? n)%nat && (n <=? 90)%nat then ascii_of_nat (n + 32) else c.

Fixpoint canonicalize (upper : bool) (s : string) : string :=
  match s with
  | EmptyString => EmptyString
  | String c s' =>
      let c' := if upper then toUpper c else toLower c in
      String c' (canonicalize (Ascii.eqb c' "-") s')
  end.

Definition CanonicalMIMEHeaderKey (s : string) : string :=
  if forallb validHeaderFieldByte (list_ascii_of_string s)
  then canonicalize true s
  else s.

(** [http.Header] *)
Definition Header_Get (h : gmap string (list string)) (key : string) : string :=
  match h !! CanonicalMIMEHeaderKey key with
  | Some (v :: _) => v
  | _ => ""
  end.

Definition Header_Set (h : gmap string (list string)) (key value : string)
  : gmap string (list string) :=
  <[CanonicalMIMEHeaderKey key := [value]]> h.

(** [http.ResponseWriter]: the header map being built, and what has gone
    out: the status line with the headers as they were at that moment, and
    the body. *)
Record ResponseWriter : Type := mkResponseWriter {
  rw_header : gmap string (list string);
  rw_status : option nat;
  rw_sent : gmap string (list string);
  rw_body : string;
}.

Definition newResponseWriter : ResponseWriter := mkResponseWriter ∅ None ∅ "".

Definition setHeader (key value : string) (w : ResponseWriter) : ResponseWriter :=
  mkResponseWriter (Header_Set (rw_header w) key value)
                   (rw_status w) (rw_sent w) (rw_body w).

(** Only the first [WriteHeader] counts. *)
Definition WriteHeader (code : nat) (w : ResponseWriter) : ResponseWriter :=
  match rw_status w with
  | Some _ => w
  | None => mkResponseWriter (rw_header w) (Some code) (rw_header w) (rw_body w)
  end.

Definition bodyAllowedForStatus (status : nat) : bool :=
  negb (((100 <=? status)%nat && (status <=? 199)%nat)
        || (status =? 204)%nat || (status =? 304)%nat).

(** [Write] sends a 200 status line first when none has been sent, and
    drops the data when the status admits no body. *)
Definition Write (data : string) (w : ResponseWriter) : ResponseWriter :=
  let w := WriteHeader StatusOK w in
  match rw_status w with
  | Some code =>
      if bodyAllowedForStatus code
      then mkResponseWriter (rw_header w) (rw_status w) (rw_sent w) (rw_body w ++ data)
      else w
  | None => w
  end.

(** [*http.Request] as the handlers see it: the route variables of
    [mux.Vars], the header, and what reading the body to its end gives. *)
Record Request : Type := mkRequest {
  Vars : gmap string string;
  Header : gmap string (list string);
  Body : string * option error;
}.

(** A Go map read: the zero value for a missing key. *)
Definition index (m : gmap string string) (key : string) : string :=
  default "" (m !! key).

(** ** The endpoints installed by [Start] *)

Section Endpoints.

(** [errors.As(err, &psrpcErr)]: for an error that carries a
    [psrpc.Error], its [ToHttp()] status and its [Error()] text.  The
    sentinels are declared in pkg/errors and in psrpc, so the view of every
    error value is a parameter. *)
Variable errorsAs : error -> option (nat * string).

(** [ScherbanExtractDetails(body) (ufrag, pwd string, err error)], declared
    elsewhere in package whip. *)
Variable ScherbanExtractDetails : string -> string * string * option error.

(** A request being served: its response writer and the calls made so far. *)
Definition Conn : Type := ResponseWriter * list Event.

Definition emit (e : Event) (c : Conn) : Conn := (fst c, (snd c ++ [e])%list).
Definition onWriter (f : ResponseWriter -> ResponseWriter) (c : Conn) : Conn :=
  (f (fst c), snd c).

(** [s.handleError(err, w)] *)
Definition handleError (err : option error) (w : ResponseWriter) : ResponseWriter :=
  match err with
  | Some e =>
      match errorsAs e with
      | Some (status, text) => Write text (WriteHeader status w)
      | None => WriteHeader StatusInternalServerError w
      end
  | None => w
  end.

Definition handleErrorOn (err : option error) (c : Conn) : Conn :=
  match err with
  | Some e => onWriter (handleError err) (emit (EvHandleError e) c)
  | None => c
  end.

Definition setCORSHeaders (resourceEndpoint : bool) (w : ResponseWriter)
  : ResponseWriter :=
  let w := setHeader "Access-Control-Allow-Origin" "*" w in
  let w := setHeader "Access-Control-Allow-Headers" "*" w in
  if resourceEndpoint then
    setHeader "Access-Control-Allow-Methods" "PATCH, OPTIONS, DELETE" w
  else
    let w := setHeader "Accept-Post" "application/sdp" w in
    let w := setHeader "Access-Control-Allow-Methods" "POST, OPTIONS" w in
    setHeader "Access-Control-Expose-Headers" "Location, ETag" w.

(** Sequencing on the task of the calling goroutine: [k] runs where [t]
    returns, not in the goroutines [t] starts, and not after a panic. *)
Fixpoint andThen (t k : Task) : Task :=
  match t with
  | Ret => k
  | Do e t' => Do e (andThen t' k)
  | Go child t' => Go child (andThen t' k)
  | Halt => Halt
  end.

(** [s.handleNewWhipClient(w, r, streamKey) error] *)
Definition handleNewWhipClient (s : WHIPServer) (w : ResponseWriter)
    (r : Request) (streamKey : string)
  : Outcome (option error) * ResponseWriter * Task :=
  let app := index (Vars r) "app" in
  let '(sdpOffer, err) := Body r in
  match err with
  | Some e => (Returned (Some e), w, Ret)
  | None =>
      let '(res, t) := createStream s streamKey sdpOffer in
      let t := Do (EvLog "new whip request") t in
      match res with
      | Panicked => (Panicked, w, t)
      | Returned (_, _, Some e) => (Returned (Some e), w, t)
      | Returned (resourceId, sdp, None) =>
          let w := setHeader "Access-Control-Allow-Origin" "*" w in
          let w := setHeader "Access-Control-Expose-Headers" "Location, ETag" w in
          let w := setHeader "Content-Type" "application/sdp" w in
          let w := setHeader "Location" (Sprintf_path3 app streamKey resourceId) w in
          let w := setHeader "ETag" (Sprintf_08x (crc32.ChecksumIEEE sdpOffer)) w in
          let w := WriteHeader StatusCreated w in
          let w := Write sdp w in
          (Returned None, w, t)
      end
  end.

(** The body shared by the two POST routes: [handleNewWhipClient] under
    the deferred [s.handleError(err, w)].  When the call panics the
    deferred function sees [err == nil] and the server drops the
    connection. *)
Definition serveCreate (s : WHIPServer) (w : ResponseWriter) (r : Request)
    (streamKey : string) : Outcome ResponseWriter * Task :=
  let '(res, w, t) := handleNewWhipClient s w r streamKey in
  match res with
  | Returned (Some e) =>
      (Returned (handleError (Some e) w), andThen t (Do (EvHandleError e) Ret))
  | Returned None => (Returned w, t)
  | Panicked => (Panicked, t)
  end.

(** POST /{app} *)
Definition postApp (s : WHIPServer) (w : ResponseWriter) (r : Request)
  : Outcome ResponseWriter * Task :=
  let bearer := Header_Get (Header r) "Authorization" in
  (* OBS adds the 'Bearer' prefix as expected, but some other clients do not *)
  let streamKey := TrimPrefix bearer "Bearer " in
  serveCreate s w r streamKey.

(** POST /{app}/{stream_key} *)
Definition postAppStreamKey (s : WHIPServer) (w : ResponseWriter) (r : Request)
  : Outcome ResponseWriter * Task :=
  let streamKey := index (Vars r) "stream_key" in
  serveCreate s w r streamKey.

(** OPTIONS /{app} and OPTIONS /{app}/{stream_key} *)
Definition optionsApp (w : ResponseWriter) (r : Request) : ResponseWriter :=
  WriteHeader StatusNoContent (setCORSHeaders false w).

(** OPTIONS /{app}/{stream_key}/{resource_id} *)
Definition optionsResource (w : ResponseWriter) (r : Request) : ResponseWriter :=
  WriteHeader StatusNoContent (setCORSHeaders true w).

(** DELETE /{app}/{stream_key}/{resource_id} *)
Definition deleteResource (s : WHIPServer) (w : ResponseWriter) (r : Request)
  : Conn :=
  let vars := Vars r in
  let streamKey := index vars "stream_key" in
  let resourceID := index vars "resource_id" in
  let c := emit (EvLog "handling WHIP delete request") (w, []) in
  let c := onWriter (setHeader "Access-Control-Allow-Origin" "*") c in
  let c := emit (EvDeleteWHIPResource resourceID streamKey) c in
  let err := DeleteWHIPResource (rpcClient s) resourceID resourceID streamKey in
  let err := if decide (err = Some ErrNoResponse)
             then Some ErrIngressNotFound else err in
  (* deferred *)
  handleErrorOn err c.

(** PATCH /{app}/{stream_key}/{resource_id} *)
Definition patchResource (s : WHIPServer) (w : ResponseWriter) (r : Request)
  : Conn :=
  let vars := Vars r in
  let streamKey := index vars "stream_key" in
  let resourceID := index vars "resource_id" in
  let c := emit (EvLog "handling ICE Restart request") (w, []) in
  let c := onWriter (setHeader "Access-Control-Allow-Origin" "*") c in
  if negb (String.eqb (Header_Get (Header r) "If-Match") "*") then
    let c := emit (EvLog "WHIP client attempted Trickle-ICE") c in
    onWriter (WriteHeader StatusNoContent) c
  else
    let '(body, err) := Body r in
    match err with
    | Some _ =>
        let c := emit (EvLog "WHIP ICE Restart failed to read body") c in
        handleErrorOn (Some ErrInvalidWHIPRestartRequest) c
    | None =>
        let c := emit (EvLog "WHIP ICE Restart request") c in
        let '(userFragment, password, err) := ScherbanExtractDetails body in
        match err with
        | Some _ =>
            let c := emit (EvLog "WHIP ICE Restart failed to unmarshal SDP") c in
            handleErrorOn (Some ErrInvalidWHIPRestartRequest) c
        | None =>
            if String.eqb userFragment "" || String.eqb password "" then
              let c := emit (EvLog "WHIP ICE Restart failed to extract ice-ufrag/ice-pwd") c in
              handleErrorOn (Some ErrInvalidWHIPRestartRequest) c
            else
              let c := emit (EvLog "Extracted Fragment and Password") c in
              let c := emit (EvICERestartWHIPResource resourceID streamKey
                               userFragment password) c in
              match ICERestartWHIPResource (rpcClient s) resourceID
                      userFragment password resourceID streamKey with
              | RpcErr e =>
                  if decide (e = ErrNoResponse) then
                    let c := handleErrorOn (Some ErrIngressNotFound) c in
                    emit (EvLog "WHIP ICE Restart failed no such session") c
                  else
                    let c := emit (EvLog "WHIP ICE Restart failed") c in
                    handleErrorOn (Some e) c
              | RpcOk frag =>
                  let c := onWriter (setHeader "Content-Type"
                                       "application/trickle-ice-sdpfrag") c in
                  let c := onWriter (setHeader "ETag"
                                       (Sprintf_08x (crc32.ChecksumIEEE frag))) c in
                  let c := onWriter (WriteHeader StatusOK) c in
                  onWriter (Write frag) c
              end
        end
    end.

End Endpoints.

(** ** The collaborators' answers for one call of [createStream] *)

Definition published (s : WHIPServer) (streamKey : string) : Published :=
  onPublish s streamKey (NewGuid s) (NewWHIPHandler s).

Definition negotiated (s : WHIPServer) (streamKey sdpOffer : string)
  : string * option error :=
  Handler.Init (NewWHIPHandler s) (pub_params (published s streamKey)) sdpOffer.

Definition started (s : WHIPServer) : MimeTypes * option error :=
  Handler.Start (NewWHIPHandler s).

(** The start phase is reached and [h.Start] returns no error. *)
Definition start_succeeded (s : WHIPServer) (streamKey sdpOffer : string) : Prop :=
  pub_err (published s streamKey) = None /\
  snd (negotiated s streamKey sdpOffer) = None /\
  snd (started s) = None.

(** The start phase is reached and [h.Start] returns an error (a passed
    deadline included). *)
Definition start_failed (s : WHIPServer) (streamKey sdpOffer : string) : Prop :=
  pub_err (published s streamKey) = None /\
  snd (negotiated s streamKey sdpOffer) = None /\
  snd (started s) <> None.

Definition wait_returned (s : WHIPServer) : Prop :=
  exists err, Handler.WaitForSessionEnd (NewWHIPHandler s) = Returns err.

(** ** Sample collaborators *)

Module Sample.
Definition mimes : MimeTypes := Some {[ "video" := "video/h264" ]}.

Definition handler (initErr startErr : option error) : Handler.t :=
  Handler.mk (fun _ _ => (match initErr with None => "v=0 answer" | Some _ => "" end, initErr))
             (match startErr with None => mimes | Some _ => None end, startErr)
             (Returns None)
             (fun _ _ _ => None).

Definition ready : ReadyFunc := fun _ err =>
  match err with None => Some 7 | Some _ => None end.

Definition client (err : option error) : IngressHandlerClient :=
  mkClient (fun _ _ _ => err)
           (fun _ _ _ _ _ => match err with
                             | None => RpcOk "a=ice-ufrag:x"
                             | Some e => RpcErr e
                             end).

Definition server (h : Handler.t) (ready : option ReadyFunc) (ended : option unit)
  : WHIPServer :=
  NewWHIPServer (client None) (fun _ _ _ => mkPublished 0 ready ended None)
                "WH_abc" h.

(** A server whose RPC client answers with [rpcErr]. *)
Definition remote (rpcErr : option error) : WHIPServer :=
  NewWHIPServer (client rpcErr) (fun _ _ _ => mkPublished 0 (Some ready) (Some tt) None)
                "WH_abc" (handler None None).

(** The view of the errors: the sentinels carry a status, [ErrOther] does
    not. *)
Definition errorsAs (e : error) : option (nat * string) :=
  match e with
  | ErrIngressNotFound => Some (404, "ingress not found")
  | ErrInvalidWHIPRestartRequest => Some (400, "whip restart request was invalid")
  | ErrNoResponse => Some (503, "no response from servers")
  | ErrOther _ => None
  end.

Definition extract (body : string) : string * string * option error :=
  if String.eqb body "" then ("", "", None) else ("ufrag", "pwd", None).

Definition request (auth : option string) (ifMatch : option string) (body : string)
  : Request :=
  mkRequest {[ "app" := "live"; "stream_key" := "abc"; "resource_id" := "WH_abc" ]}
            (let h := match auth with
                      | Some v => {[ "Authorization" := [v] ]}
                      | None => ∅
                      end in
             match ifMatch with
             | Some v => <[ "If-Match" := [v] ]> h
             | None => h
             end)
            (body, None).
End Sample.

(** ** The statements of the specification that the code does not meet
    as worded *)

(** The claim of C1 as the specification words it: one invocation of
    [ready] in every schedule. *)
Definition ready_exactly_once (s : WHIPServer) (streamKey sdpOffer : string) : Prop :=
  forall tr, In tr (schedules (snd (createStream s streamKey sdpOffer))) ->
    count is_ready tr = 1.


(** The claim of C3 as the specification words it: registration before
    [h.Start]; removal before [ended]; and, after a failed start, removal
    before [ready]. *)
Definition ordering_rule (s : WHIPServer) (streamKey sdpOffer : string) : Prop :=
  forall tr, In tr (schedules (snd (createStream s streamKey sdpOffer))) ->
    precedes is_register is_start tr /\
    precedes is_delete is_ended tr /\
    (start_failed s streamKey sdpOffer -> precedes is_delete is_ready tr).

(** The claim of C7 as the specification words it. *)
Definition relay_operations_fail_when_absent (s : WHIPServer) (resourceId : string)
  : Prop :=
  handlers s !! resourceId = None ->
  forall kind token w,
    failure (fst (AssociateRelay s resourceId kind token w)) = Some ErrIngressNotFound /\
    failure (fst (DissociateRelay s resourceId kind)) = Some ErrIngressNotFound.

(** ** Lowercase hexadecimal strings *)

Definition is_lower_hex (c : ascii) : bool :=
  existsb (Ascii.eqb c) (list_ascii_of_string "0123456789abcdef").

Fixpoint string_forall (P : ascii -> bool) (s : string) : bool :=
  match s with
  | EmptyString => true
  | String c s' => P c && string_forall P s'
  end.

(** ** Proof automation *)

(** The oracle answers that decide the shape of [createStream]'s task. *)
Ltac lifecycle_cases s streamKey sdpOffer :=
  unfold start_succeeded, start_failed, wait_returned,
    negotiated, started, published in *;
  unfold createStream, startTask, startDeferred, endTask in *;
  destruct (onPublish s streamKey (NewGuid s) (NewWHIPHandler s))
    as [p ready ended [perr|]]; simpl in *;
  [|destruct (Handler.Init (NewWHIPHandler s) p sdpOffer) as [sdp [ierr|]];
    simpl in *;
    [|destruct (Handler.Start (NewWHIPHandler s)) as [mimeTypes [serr|]];
      simpl in *]].

(** A membership in a list that has been computed down to its elements. *)
Ltac pick_schedule H :=
  simpl in H;
  repeat match type of H with
         | _ \/ _ => destruct H as [H|H]
         | False => destruct H
         end;
  try (symmetry in H).

(** ** The server between two calls *)

(** The server once the registry actions of a schedule have taken effect. *)
Definition after (s : WHIPServer) (tr : list Event) : WHIPServer :=
  mkServer (onPublish s) (rpcClient s) (run_registry (handlers s) tr)
           (NewGuid s) (NewWHIPHandler s).

Definition is_setStats (e : Event) : bool :=
  match e with EvSetMediaStatsGatherer _ => true | _ => false end.
Definition is_init (e : Event) : bool :=
  match e with EvInit _ => true | _ => false end.

(** [l1] is an initial segment of [l2]. *)
Definition initial_segment {A} (l1 l2 : list A) : Prop :=
  exists rest, l2 = (l1 ++ rest)%list.

(** The response writer of the resource endpoints once the CORS header of
    server.go 146 and 161 is set. *)
Definition corsWriter : ResponseWriter :=
  setHeader "Access-Control-Allow-Origin" "*" newResponseWriter.

(** A restart request that passes the tests of server.go 163-191: the
    [If-Match] header is [*], the body can be read, and the parser finds a
    username fragment and a password, neither empty. *)
Definition restart_request (extract : string -> string * string * option error)
    (r : Request) (ufrag pwd : string) : Prop :=
  Header_Get (Header r) "If-Match" = "*" /\
  exists body, Body r = (body, None) /\ extract body = (ufrag, pwd, None) /\
               ufrag <> "" /\ pwd <> "".

(** * Properties *)

(** ** Merging and schedules *)

Section Traces.
Context {A : Type}.
Implicit Types l : list A.

Lemma interleave_nil_l l : interleave [] l = [l].
Proof. destruct l; reflexivity. Qed.

Lemma interleave_nil_r l : interleave l [] = [l].
Proof. destruct l; reflexivity. Qed.

Lemma interleave_cons_cons (a b : A) l1 l2 :
  interleave (a :: l1) (b :: l2) =
  (map (cons a) (interleave l1 (b :: l2))
     ++ map (cons b) (interleave (a :: l1) l2))%list.
Proof. reflexivity. Qed.

Lemma Interleaved_nil_l l2 l : Interleaved [] l2 l -> l = l2.
Proof.
  intros H. remember [] as l1 eqn:E. induction H; try discriminate; auto.
  f_equal; auto.
Qed.

Lemma Interleaved_nil_r l1 l : Interleaved l1 [] l -> l = l1.
Proof.
  intros H. remember [] as l2 eqn:E. induction H; try discriminate; auto.
  f_equal; auto.
Qed.

Lemma Interleaved_refl_l l : Interleaved l [] l.
Proof. induction l; constructor; auto. Qed.

Lemma Interleaved_refl_r l : Interleaved [] l l.
Proof. induction l; constructor; auto. Qed.

Lemma Interleaved_app l1 l2 : Interleaved l1 l2 (l1 ++ l2).
Proof.
  induction l1 as [|a l1 IH]; simpl; [apply Interleaved_refl_r|].
  now constructor.
Qed.

Lemma interleave_sound l1 : forall l2 l,
  In l (interleave l1 l2) -> Interleaved l1 l2 l.
Proof.
  induction l1 as [|a l1 IH1]; intros l2 l.
  - rewrite interleave_nil_l. intros [<-|[]]. apply Interleaved_refl_r.
  - induction l2 as [|b l2 IH2] in l |- *.
    + rewrite interleave_nil_r. intros [<-|[]]. apply Interleaved_refl_l.
    + rewrite interleave_cons_cons, in_app_iff, !in_map_iff.
      intros [(t & <- & Ht)|(t & <- & Ht)]; constructor; auto.
Qed.

Lemma interleave_complete l1 l2 l :
  Interleaved l1 l2 l -> In l (interleave l1 l2).
Proof.
  induction 1 as [|a l1 l2 l H IH|b l1 l2 l H IH].
  - left; reflexivity.
  - destruct l2 as [|b l2].
    + apply Interleaved_nil_r in H as ->. rewrite interleave_nil_r. now left.
    + rewrite interleave_cons_cons, in_app_iff. left. now apply in_map.
  - destruct l1 as [|a l1].
    + apply Interleaved_nil_l in H as ->. rewrite interleave_nil_l. now left.
    + rewrite interleave_cons_cons, in_app_iff. right. now apply in_map.
Qed.

Lemma Interleaved_filter (P : A -> bool) l1 l2 l :
  Interleaved l1 l2 l ->
  Interleaved (List.filter P l1) (List.filter P l2) (List.filter P l).
Proof.
  induction 1; simpl; try constructor;
    destruct (P _); try constructor; assumption.
Qed.

Lemma Interleaved_length l1 l2 l :
  Interleaved l1 l2 l -> length l = length l1 + length l2.
Proof. induction 1; simpl; lia. Qed.
End Traces.

Lemma schedules_restrict (P : Event -> bool) (t : Task) : forall tr,
  In tr (schedules t) -> In (List.filter P tr) (schedules (restrict P t)).
Proof.
  induction t as [|e k IH|child IHc k IHk|]; simpl; intros tr.
  - intros [<-|[]]. now left.
  - rewrite in_map_iff. intros (tr' & <- & Htr'). simpl.
    destruct (P e); simpl; auto using in_map.
  - rewrite in_flat_map. intros (tc & Hc & H).
    rewrite in_flat_map in H. destruct H as (tk & Hk & H).
    apply in_flat_map. exists (List.filter P tc). split; [auto|].
    apply in_flat_map. exists (List.filter P tk). split; [auto|].
    apply interleave_complete, Interleaved_filter, interleave_sound, H.
  - intros [<-|[]]. now left.
Qed.

Lemma schedules_count (P : Event -> bool) (t : Task) : forall tr,
  In tr (schedules t) -> count P tr = occurrences P t.
Proof.
  unfold count.
  induction t as [|e k IH|child IHc k IHk|]; simpl; intros tr.
  - now intros [<-|[]].
  - rewrite in_map_iff. intros (tr' & <- & Htr'). simpl.
    rewrite <- (IH _ Htr'). destruct (P e); reflexivity.
  - rewrite in_flat_map. intros (tc & Hc & H).
    rewrite in_flat_map in H. destruct H as (tk & Hk & H).
    apply interleave_sound, (Interleaved_filter P), Interleaved_length in H.
    rewrite H, (IHc _ Hc), (IHk _ Hk). reflexivity.
  - now intros [<-|[]].
Qed.

Lemma schedules_inhabited (t : Task) : exists tr, In tr (schedules t).
Proof.
  induction t as [|e k [tr IH]|child [tc IHc] k [tk IHk]|]; simpl.
  - exists []. now left.
  - exists (e :: tr). now apply in_map.
  - exists (tc ++ tk)%list.
    apply in_flat_map. exists tc. split; [assumption|].
    apply in_flat_map. exists tk. split; [assumption|].
    apply interleave_complete, Interleaved_app.
  - exists []. now left.
Qed.

Lemma ordered_filter (P Q : Event -> bool) (tr : list Event) : forall seen,
  ordered P Q seen (List.filter (fun e => P e || Q e) tr) = ordered P Q seen tr.
Proof.
  induction tr as [|e tr IH]; intros seen; simpl; [reflexivity|].
  destruct (P e) eqn:HP, (Q e) eqn:HQ; simpl; rewrite ?HP, ?HQ, IH;
    try reflexivity.
  now rewrite orb_false_r.
Qed.

Lemma ordered_sound (P Q : Event -> bool) (tr : list Event) : forall seen,
  ordered P Q seen tr = true ->
  forall l1 q l2, tr = (l1 ++ q :: l2)%list -> Q q = true ->
    seen = true \/ exists p, In p l1 /\ P p = true.
Proof.
  induction tr as [|e tr IH]; intros seen H l1 q l2 E HQ.
  - destruct l1; discriminate.
  - simpl in H. apply andb_prop in H as [H1 H2].
    destruct l1 as [|x l1]; simpl in E; injection E as E1 E2; subst.
    + rewrite HQ in H1. now left.
    + destruct (IH _ H2 _ _ _ eq_refl HQ) as [Hs|(p & Hp & HPp)].
      * apply orb_prop in Hs as [Hs|Hs]; [now left|].
        right. exists x. split; [now left|assumption].
      * right. exists p. split; [now right|assumption].
Qed.

Lemma ordered_precedes (P Q : Event -> bool) (tr : list Event) :
  ordered P Q false tr = true -> precedes P Q tr.
Proof.
  intros H l1 q l2 E HQ.
  destruct (ordered_sound P Q tr false H l1 q l2 E HQ) as [?|?];
    [discriminate|assumption].
Qed.

Lemma precedes_by_projection (P Q : Event -> bool) (tr : list Event) :
  ordered P Q false (List.filter (fun e => P e || Q e) tr) = true ->
  precedes P Q tr.
Proof. rewrite ordered_filter. apply ordered_precedes. Qed.

Lemma run_registry_filter (tr : list Event) : forall reg,
  run_registry reg tr = run_registry reg (List.filter is_registry tr).
Proof.
  unfold run_registry.
  induction tr as [|e tr IH]; intros reg; simpl; [reflexivity|].
  destruct e; simpl; apply IH.
Qed.

(** ** The lifecycle of a session *)

Lemma createStream_ready_occurrences (s : WHIPServer) (streamKey sdpOffer : string) :
  occurrences is_ready (snd (createStream s streamKey sdpOffer)) =
  match pub_err (published s streamKey), pub_ready (published s streamKey) with
  | Some _, _ => 0
  | None, Some _ => 1
  | None, None => 0
  end.
Proof.
  lifecycle_cases s streamKey sdpOffer; try reflexivity.
  - destruct ready; reflexivity.
  - destruct ready as [ready|]; [|reflexivity].
    destruct (ready mimeTypes (Some serr)); reflexivity.
  - destruct (Handler.WaitForSessionEnd (NewWHIPHandler s)) as [[e|]|];
      destruct ended, ready as [ready|]; simpl; try reflexivity;
      destruct (ready mimeTypes None); reflexivity.
Qed.

(** C1, counterexample: [onPublish] succeeds and hands back a nil [ready];
    negotiation and start succeed, and no schedule holds an invocation of
    [ready] (the deferred function of the start goroutine is installed under
    [if ready != nil]). *)
Lemma ready_exactly_once_fails_for_nil_ready :
  let s := Sample.server (Sample.handler None None) None (Some tt) in
  pub_err (published s "abc") = None /\ ~ ready_exactly_once s "abc" "v=0".
Proof.
  split; [reflexivity|].
  intros H.
  specialize (H _ (or_introl eq_refl)). discriminate H.
Qed.

(** C1 (amended): when [onPublish] succeeds with a non-nil [ready], every
    schedule of the call holds exactly one invocation of [ready]: made by
    [createStream] itself, with [(nil, err)], when [h.Init] fails, and made
    by the start goroutine, with the results of [h.Start], otherwise.  When
    [onPublish] fails, [ready] is never invoked; neither is it when
    [onPublish] hands back a nil [ready] and [h.Init] succeeds. *)
Theorem createStream_ready_callback (s : WHIPServer) (streamKey sdpOffer : string)
    (tr : list Event) :
  In tr (schedules (snd (createStream s streamKey sdpOffer))) ->
  match pub_err (published s streamKey), pub_ready (published s streamKey) with
  | Some _, _ => count is_ready tr = 0
  | None, Some _ =>
      count is_ready tr = 1 /\
      match snd (negotiated s streamKey sdpOffer) with
      | Some e =>
          List.filter is_ready (main_thread (snd (createStream s streamKey sdpOffer)))
          = [EvReady None (Some e)]
      | None =>
          List.filter is_ready (main_thread (snd (createStream s streamKey sdpOffer)))
          = [] /\
          List.filter is_ready tr = [EvReady (fst (started s)) (snd (started s))]
      end
  | None, None =>
      snd (negotiated s streamKey sdpOffer) = None -> count is_ready tr = 0
  end.
Proof.
  intros H.
  pose proof (schedules_count is_ready _ _ H) as Hcount.
  rewrite createStream_ready_occurrences in Hcount.
  apply (schedules_restrict is_ready) in H.
  lifecycle_cases s streamKey sdpOffer; try assumption.
  - destruct ready; [split; [assumption|reflexivity]|discriminate].
  - destruct ready as [ready|]; [|intros _; assumption].
    repeat split; try assumption.
    destruct (ready mimeTypes (Some serr)); pick_schedule H; exact H.
  - destruct ready as [ready|]; [|intros _; assumption].
    repeat split; try assumption.
    destruct (Handler.WaitForSessionEnd (NewWHIPHandler s)) as [[e|]|];
      destruct ended, (ready mimeTypes None); pick_schedule H; exact H.
Qed.

Lemma createStream_ready_callback_witness :
  let s := Sample.server (Sample.handler None None) (Some Sample.ready) (Some tt) in
  let tr := hd [] (schedules (snd (createStream s "abc" "v=0"))) in
  count is_ready tr = 1.
Proof.
  intros s tr.
  exact (proj1 (createStream_ready_callback s "abc" "v=0" tr (or_introl eq_refl))).
Defined.

Lemma createStream_ended_occurrences (s : WHIPServer) (streamKey sdpOffer : string) :
  occurrences is_ended (snd (createStream s streamKey sdpOffer)) =
  match pub_err (published s streamKey), snd (negotiated s streamKey sdpOffer),
        snd (started s), Handler.WaitForSessionEnd (NewWHIPHandler s),
        pub_ended (published s streamKey) with
  | None, None, None, Returns _, Some _ => 1
  | _, _, _, _, _ => 0
  end.
Proof.
  lifecycle_cases s streamKey sdpOffer; try reflexivity.
  - destruct ready; reflexivity.
  - destruct ready as [ready|]; [|reflexivity].
    destruct (ready mimeTypes (Some serr)); reflexivity.
  - destruct (Handler.WaitForSessionEnd (NewWHIPHandler s)) as [[e|]|];
      destruct ended, ready as [ready|]; simpl; try reflexivity;
      destruct (ready mimeTypes None); reflexivity.
Qed.




(** *** Failure of the start phase *)

(** With a non-nil [ready], a failed start takes the session out of the
    registry again and [ended] is not invoked. *)
Lemma start_failure_cleanup (s : WHIPServer) (streamKey sdpOffer : string)
    (cb : ReadyFunc) (reg : gmap string (option Handler.t)) (tr : list Event) :
  start_failed s streamKey sdpOffer ->
  pub_ready (published s streamKey) = Some cb ->
  In tr (schedules (snd (createStream s streamKey sdpOffer))) ->
  run_registry reg tr !! NewGuid s = None /\ count is_ended tr = 0.
Proof.
  intros Hfail Hready H.
  pose proof (schedules_count is_ended _ _ H) as Hcount.
  rewrite createStream_ended_occurrences in Hcount.
  rewrite run_registry_filter.
  apply (schedules_restrict is_registry) in H.
  destruct Hfail as (Hp & Hi & Hs).
  lifecycle_cases s streamKey sdpOffer; try discriminate; try congruence;
    destruct ready as [ready|]; try discriminate.
  split; [|assumption].
  destruct (ready mimeTypes (Some serr)); pick_schedule H; rewrite H;
    apply lookup_delete_eq.
Qed.

(** With a nil [ready] nothing is deferred: after a failed start the entry
    made at server.go 379 stays in the registry. *)
Lemma start_failure_without_ready (s : WHIPServer) (streamKey sdpOffer : string)
    (reg : gmap string (option Handler.t)) (tr : list Event) :
  start_failed s streamKey sdpOffer ->
  pub_ready (published s streamKey) = None ->
  In tr (schedules (snd (createStream s streamKey sdpOffer))) ->
  run_registry reg tr !! NewGuid s = Some (Some (NewWHIPHandler s)).
Proof.
  intros Hfail Hready H.
  rewrite run_registry_filter.
  apply (schedules_restrict is_registry) in H.
  destruct Hfail as (Hp & Hi & Hs).
  lifecycle_cases s streamKey sdpOffer; try discriminate; try congruence.
  subst ready. pick_schedule H. rewrite H. apply lookup_insert_eq.
Qed.

(** C2, the failing input: [onPublish] hands back a nil [ready], [h.Init]
    succeeds and [h.Start] fails.  The removal at server.go 370-374 sits
    inside the function deferred under [if ready != nil], so nothing removes
    the session: in the only schedule the registry still maps the resource
    id to the handler. *)
Theorem start_failure_with_nil_ready_leaves_entry :
  let h := Sample.handler None (Some (ErrOther 2)) in
  let s := Sample.server h None (Some tt) in
  start_failed s "abc" "v=0" /\
  forall tr, In tr (schedules (snd (createStream s "abc" "v=0"))) ->
    run_registry (handlers s) tr !! "WH_abc" = Some (Some h) /\
    count is_ended tr = 0.
Proof.
  intros h s. split.
  - repeat split. discriminate.
  - intros tr [<-|[]]. split; reflexivity.
Qed.

(** *** Failure of the negotiation *)

(** With a non-nil [ready], a failed [h.Init] invokes [ready(nil, err)]
    once, returns the error, and leaves the registry alone. *)
Lemma negotiation_failure_with_ready (s : WHIPServer) (streamKey sdpOffer : string)
    (cb : ReadyFunc) (e : error) :
  pub_err (published s streamKey) = None ->
  pub_ready (published s streamKey) = Some cb ->
  snd (negotiated s streamKey sdpOffer) = Some e ->
  fst (createStream s streamKey sdpOffer) = Returned ("", "", Some e) /\
  schedules (snd (createStream s streamKey sdpOffer)) =
    [[EvOnPublish streamKey (NewGuid s); EvInit sdpOffer; EvReady None (Some e)]] /\
  forall reg tr, In tr (schedules (snd (createStream s streamKey sdpOffer))) ->
    run_registry reg tr = reg.
Proof.
  intros Hp Hr Hi.
  lifecycle_cases s streamKey sdpOffer; try discriminate.
  destruct ready as [ready|]; try discriminate. injection Hi as ->.
  repeat split. intros reg tr [<-|[]]. reflexivity.
Qed.

(** With a nil [ready], a failed [h.Init] ends in the call of a nil func
    value. *)
Lemma negotiation_failure_without_ready (s : WHIPServer) (streamKey sdpOffer : string)
    (e : error) :
  pub_err (published s streamKey) = None ->
  pub_ready (published s streamKey) = None ->
  snd (negotiated s streamKey sdpOffer) = Some e ->
  fst (createStream s streamKey sdpOffer) = Panicked /\
  schedules (snd (createStream s streamKey sdpOffer)) =
    [[EvOnPublish streamKey (NewGuid s); EvInit sdpOffer; EvPanic]].
Proof.
  intros Hp Hr Hi.
  lifecycle_cases s streamKey sdpOffer; try discriminate.
  subst ready. split; reflexivity.
Qed.

(** C5, the failing input: [onPublish] hands back a nil [ready] and
    [h.Init] fails.  server.go 353 calls [ready(nil, err)] without the
    [ready != nil] test made at line 363: the call of a nil func value
    panics, and [createStream] does not return the error. *)
Theorem negotiation_failure_with_nil_ready_panics :
  let e := ErrOther 1 in
  let s := Sample.server (Sample.handler (Some e) None) None (Some tt) in
  snd (negotiated s "abc" "v=0") = Some e /\
  fst (createStream s "abc" "v=0") = Panicked /\
  fst (createStream s "abc" "v=0") <> Returned ("", "", Some e).
Proof. repeat split. discriminate. Qed.

(** *** Order of registration, removal and callbacks *)

(** C3, counterexample: [h.Start] fails and [ready] is non-nil.  The
    deferred function calls [ready(mimeTypes, err)] first (server.go 365) and
    deletes the registry entry afterwards (370-374). *)
Lemma ordering_rule_fails_on_start_failure :
  ~ ordering_rule
      (Sample.server (Sample.handler None (Some (ErrOther 2)))
                     (Some Sample.ready) (Some tt))
      "abc" "v=0".
Proof.
  intros H.
  destruct (H _ (or_introl eq_refl)) as (_ & _ & H3).
  destruct (H3 ltac:(repeat split; discriminate)
               [EvOnPublish "abc" "WH_abc"; EvInit "v=0";
                EvRegister "WH_abc" (Sample.handler None (Some (ErrOther 2)));
                EvStart]
               (EvReady None (Some (ErrOther 2)))
               [EvDelete "WH_abc"] eq_refl eq_refl) as (p & Hin & Hp).
  simpl in Hin.
  repeat (destruct Hin as [<-|Hin]; [discriminate Hp|]). exact Hin.
Qed.

(** C3 (amended): in every schedule the registration comes strictly before
    [h.Start] and the removal at the end of the session strictly before
    [ended]; after a failed start with a non-nil [ready], the invocation of
    [ready] comes first and the removal from the registry follows it. *)
Theorem createStream_ordering (s : WHIPServer) (streamKey sdpOffer : string)
    (tr : list Event) :
  In tr (schedules (snd (createStream s streamKey sdpOffer))) ->
  precedes is_register is_start tr /\
  precedes is_delete is_ended tr /\
  (start_failed s streamKey sdpOffer ->
   pub_ready (published s streamKey) <> None ->
   precedes is_ready is_delete tr /\
   List.filter (fun e => is_ready e || is_delete e) tr =
     [EvReady (fst (started s)) (snd (started s)); EvDelete (NewGuid s)]).
Proof.
  intros H.
  pose proof (schedules_restrict (fun e => is_register e || is_start e) _ _ H) as H1.
  pose proof (schedules_restrict (fun e => is_delete e || is_ended e) _ _ H) as H2.
  pose proof (schedules_restrict (fun e => is_ready e || is_delete e) _ _ H) as H3.
  clear H.
  split; [|split].
  - apply precedes_by_projection. clear H2 H3.
    lifecycle_cases s streamKey sdpOffer.
    + pick_schedule H1; rewrite H1; reflexivity.
    + destruct ready; pick_schedule H1; rewrite H1; reflexivity.
    + destruct ready as [ready|]; [destruct (ready mimeTypes (Some serr))|];
        pick_schedule H1; rewrite H1; reflexivity.
    + destruct (Handler.WaitForSessionEnd (NewWHIPHandler s)) as [[e|]|];
        destruct ended, ready as [ready|]; simpl in H1;
        try destruct (ready mimeTypes None);
        pick_schedule H1; rewrite H1; reflexivity.
  - apply precedes_by_projection. clear H1 H3.
    lifecycle_cases s streamKey sdpOffer.
    + pick_schedule H2; rewrite H2; reflexivity.
    + destruct ready; pick_schedule H2; rewrite H2; reflexivity.
    + destruct ready as [ready|]; [destruct (ready mimeTypes (Some serr))|];
        pick_schedule H2; rewrite H2; reflexivity.
    + destruct (Handler.WaitForSessionEnd (NewWHIPHandler s)) as [[e|]|];
        destruct ended, ready as [ready|]; simpl in H2;
        try destruct (ready mimeTypes None);
        pick_schedule H2; rewrite H2; reflexivity.
  - intros (Hp & Hi & Hs) Hr. clear H1 H2.
    assert (E : List.filter (fun e => is_ready e || is_delete e) tr =
                [EvReady (fst (started s)) (snd (started s)); EvDelete (NewGuid s)]).
    { lifecycle_cases s streamKey sdpOffer; try congruence.
      destruct ready as [ready|]; [|congruence].
      destruct (ready mimeTypes (Some serr)); pick_schedule H3; exact H3. }
    split; [|exact E].
    apply precedes_by_projection.
    replace (List.filter (fun e => is_ready e || is_delete e) tr)
      with [EvReady (fst (started s)) (snd (started s)); EvDelete (NewGuid s)].
    reflexivity.
Qed.

Lemma createStream_ordering_witness :
  let s := Sample.server (Sample.handler None (Some (ErrOther 2)))
                         (Some Sample.ready) (Some tt) in
  let tr := hd [] (schedules (snd (createStream s "abc" "v=0"))) in
  List.filter (fun e => is_ready e || is_delete e) tr =
    [EvReady None (Some (ErrOther 2)); EvDelete "WH_abc"].
Proof.
  intros s tr.
  refine (proj2 (proj2 (proj2
            (createStream_ordering s "abc" "v=0" tr (or_introl eq_refl))) _ _)).
  - repeat split. discriminate.
  - discriminate.
Defined.

(** ** The relay operations *)

(** C7, counterexample: on an empty registry [DissociateRelay] reports
    nothing; the Go function has no result. *)
Lemma dissociateRelay_reports_nothing_when_absent :
  ~ relay_operations_fail_when_absent
      (Sample.server (Sample.handler None None) None None) "WH_gone".
Proof.
  intros H.
  destruct (H (lookup_empty _) "video" "token" 0) as [_ H2].
  discriminate H2.
Qed.

(** C7 (amended): for a resource id that is absent from the registry,
    [AssociateRelay] fails with [ErrIngressNotFound] and calls no handler;
    [DissociateRelay] does nothing and reports nothing. *)
Theorem relay_operations_when_absent (s : WHIPServer) (resourceId : string)
    (kind : StreamKind) (token : string) (w : WriteCloser) :
  handlers s !! resourceId = None ->
  AssociateRelay s resourceId kind token w = (Some ErrIngressNotFound, []) /\
  DissociateRelay s resourceId kind = (tt, []) /\
  failure (fst (DissociateRelay s resourceId kind)) = None.
Proof.
  intros H. unfold AssociateRelay, DissociateRelay, lookupHandler.
  rewrite H. repeat split.
Qed.

Lemma relay_operations_when_absent_witness :
  let s := Sample.server (Sample.handler None None) None None in
  AssociateRelay s "WH_gone" "video" "token" 0 = (Some ErrIngressNotFound, []).
Proof.
  intros s.
  exact (proj1 (relay_operations_when_absent s "WH_gone" "video" "token" 0
                  (lookup_empty _))).
Defined.

(** A session that is registered is found: the relay operations reach its
    handler. *)
Lemma relay_operations_when_present (s : WHIPServer) (resourceId : string)
    (h : Handler.t) (kind : StreamKind) (token : string) (w : WriteCloser) :
  handlers s !! resourceId = Some (Some h) ->
  AssociateRelay s resourceId kind token w =
    (Handler.AssociateRelay h kind token w, [EvHandlerAssociateRelay kind token]) /\
  DissociateRelay s resourceId kind = (tt, [EvHandlerDissociateRelay kind]).
Proof.
  intros H. unfold AssociateRelay, DissociateRelay, lookupHandler.
  rewrite H. split; [|reflexivity].
  destruct (Handler.AssociateRelay h kind token w); reflexivity.
Qed.

(** ** The endpoints *)

Section EndpointProperties.
Variable errorsAs : error -> option (nat * string).
Variable ScherbanExtractDetails : string -> string * string * option error.

Local Abbreviation patch := (patchResource errorsAs ScherbanExtractDetails).

(** C6: a PATCH whose [If-Match] header is not exactly [*] is answered
    with status 204 and an empty body; no RPC is made and [handleError] is
    not called. *)
Theorem patchResource_without_if_match (s : WHIPServer) (r : Request) :
  Header_Get (Header r) "If-Match" <> "*" ->
  rw_status (fst (patch s newResponseWriter r)) = Some StatusNoContent /\
  rw_body (fst (patch s newResponseWriter r)) = "" /\
  List.filter is_rpc (snd (patch s newResponseWriter r)) = [] /\
  List.filter is_handleError (snd (patch s newResponseWriter r)) = [].
Proof.
  intros H. apply String.eqb_neq in H.
  unfold patchResource. rewrite H. simpl. repeat split.
Qed.

(** C9: when the RPC client answers [psrpc.ErrNoResponse], DELETE and
    PATCH both answer as [handleError] does for
    [errors.ErrIngressNotFound], and that is the only error they handle. *)
Theorem no_response_is_not_found (s : WHIPServer) (r : Request) :
  let streamKey := index (Vars r) "stream_key" in
  let resourceID := index (Vars r) "resource_id" in
  let w := setHeader "Access-Control-Allow-Origin" "*" newResponseWriter in
  (DeleteWHIPResource (rpcClient s) resourceID resourceID streamKey
     = Some ErrNoResponse ->
   fst (deleteResource errorsAs s newResponseWriter r)
     = handleError errorsAs (Some ErrIngressNotFound) w /\
   List.filter is_handleError (snd (deleteResource errorsAs s newResponseWriter r))
     = [EvHandleError ErrIngressNotFound]) /\
  (forall ufrag pwd,
     In (EvICERestartWHIPResource resourceID streamKey ufrag pwd)
        (snd (patch s newResponseWriter r)) ->
     ICERestartWHIPResource (rpcClient s) resourceID ufrag pwd resourceID streamKey
       = RpcErr ErrNoResponse ->
     fst (patch s newResponseWriter r)
       = handleError errorsAs (Some ErrIngressNotFound) w /\
     List.filter is_handleError (snd (patch s newResponseWriter r))
       = [EvHandleError ErrIngressNotFound]).
Proof.
  intros streamKey resourceID w. split.
  - intros H. unfold deleteResource.
    fold streamKey resourceID. rewrite H.
    rewrite decide_True by reflexivity. split; reflexivity.
  - intros ufrag pwd Hin Hrpc. revert Hin. unfold patchResource.
    fold streamKey resourceID.
    assert (Hno : forall P : Prop, False -> P) by (intros P []).
    destruct (String.eqb (Header_Get (Header r) "If-Match") "*"); simpl;
      [|intros Hin; apply Hno; intuition discriminate].
    destruct (Body r) as [body [e|]]; simpl;
      [intros Hin; apply Hno; intuition discriminate|].
    destruct (ScherbanExtractDetails body) as [[userFragment password] [e|]];
      simpl; [intros Hin; apply Hno; intuition discriminate|].
    destruct (String.eqb userFragment "" || String.eqb password ""); simpl;
      [intros Hin; apply Hno; intuition discriminate|].
    intros Hin.
    assert (E : userFragment = ufrag /\ password = pwd).
    { destruct (ICERestartWHIPResource (rpcClient s) resourceID userFragment
                  password resourceID streamKey) as [frag|e];
        [|destruct (decide (e = ErrNoResponse))]; simpl in Hin;
        repeat (destruct Hin as [Hin|Hin]; try discriminate Hin);
        try (injection Hin; auto); destruct Hin. }
    destruct E as [-> ->]. rewrite Hrpc.
    rewrite decide_True by reflexivity. split; reflexivity.
Qed.
End EndpointProperties.

Lemma patchResource_without_if_match_witness :
  rw_status (fst (patchResource Sample.errorsAs Sample.extract
                    (Sample.remote None) newResponseWriter
                    (Sample.request None (Some "W/abc") "a=ice-ufrag:x")))
  = Some 204.
Proof.
  refine (proj1 (patchResource_without_if_match Sample.errorsAs Sample.extract
                   (Sample.remote None)
                   (Sample.request None (Some "W/abc") "a=ice-ufrag:x") _)).
  vm_compute. discriminate.
Defined.

Lemma no_response_is_not_found_witness :
  let s := Sample.remote (Some ErrNoResponse) in
  let r := Sample.request None (Some "*") "a=ice-ufrag:x" in
  rw_status (fst (deleteResource Sample.errorsAs s newResponseWriter r)) = Some 404 /\
  rw_status (fst (patchResource Sample.errorsAs Sample.extract s newResponseWriter r))
    = Some 404.
Proof.
  intros s r.
  destruct (no_response_is_not_found Sample.errorsAs Sample.extract s r) as [Hd Hp].
  split.
  - rewrite (proj1 (Hd eq_refl)). reflexivity.
  - rewrite (proj1 (Hp "ufrag" "pwd"
                      ltac:(vm_compute; repeat (first [left; reflexivity|right]))
                      eq_refl)).
    reflexivity.
Defined.

(** ** The entity tag: CRC-32 in eight hexadecimal digits *)

Local Open Scope Z_scope.

Lemma lxor_range (n a b : Z) :
  0 <= n -> 0 <= a < 2 ^ n -> 0 <= b < 2 ^ n -> 0 <= Z.lxor a b < 2 ^ n.
Proof.
  intros Hn Ha Hb.
  assert (H0 : 0 <= Z.lxor a b) by (apply Z.lxor_nonneg; lia).
  split; [assumption|].
  destruct (Z.eq_dec (Z.lxor a b) 0) as [->|Hne]; [apply Z.pow_pos_nonneg; lia|].
  assert (0 < n).
  { destruct (Z.eq_dec n 0) as [->|?]; [|lia].
    assert (a = 0) as -> by (simpl in Ha; lia).
    assert (b = 0) as -> by (simpl in Hb; lia).
    contradiction Hne. reflexivity. }
  apply Z.log2_lt_pow2; [lia|].
  pose proof (Z.log2_lxor a b ltac:(lia) ltac:(lia)) as Hl.
  assert (Z.log2 a < n).
  { destruct (Z.eq_dec a 0) as [->|?]; [simpl; lia|apply Z.log2_lt_pow2; lia]. }
  assert (Z.log2 b < n).
  { destruct (Z.eq_dec b 0) as [->|?]; [simpl; lia|apply Z.log2_lt_pow2; lia]. }
  lia.
Qed.

Lemma shiftr_range (a k : Z) : 0 <= k -> 0 <= a < 2 ^ 32 -> 0 <= Z.shiftr a k < 2 ^ 32.
Proof.
  intros Hk Ha. rewrite Z.shiftr_div_pow2 by assumption.
  assert (0 < 2 ^ k) by (apply Z.pow_pos_nonneg; lia).
  split; [apply Z.div_pos; lia|].
  apply Z.le_lt_trans with a; [|lia].
  apply Z.div_le_upper_bound; nia.
Qed.

Lemma crc32_shift_range (c : Z) : 0 <= c < 2 ^ 32 -> 0 <= crc32.shift c < 2 ^ 32.
Proof.
  intros Hc. unfold crc32.shift.
  pose proof (shiftr_range c 1 ltac:(lia) Hc).
  destruct (Z.testbit c 0); [|assumption].
  apply lxor_range; [lia|assumption|unfold crc32.IEEE; lia].
Qed.

Lemma crc32_simpleTable_range (i : Z) :
  0 <= i < 2 ^ 32 -> 0 <= crc32.simpleTable i < 2 ^ 32.
Proof.
  intros Hi. unfold crc32.simpleTable.
  generalize 8%nat. intros n. induction n as [|n IH]; simpl; [assumption|].
  apply crc32_shift_range, IH.
Qed.

Lemma crc32_byte_range (c : ascii) : 0 <= crc32.byte_of c < 256.
Proof.
  unfold crc32.byte_of. pose proof (N_ascii_bounded c). lia.
Qed.

Lemma crc32_simpleUpdate_range (p : string) : forall crc,
  0 <= crc < 2 ^ 32 -> 0 <= crc32.simpleUpdate crc p < 2 ^ 32.
Proof.
  induction p as [|v p IH]; intros crc Hc; simpl; [assumption|].
  apply IH, lxor_range; [lia| |apply shiftr_range; lia].
  apply crc32_simpleTable_range.
  assert (0 <= Z.lxor (Z.land crc 255) (crc32.byte_of v) < 2 ^ 8); [|lia].
  apply lxor_range; [lia| |apply crc32_byte_range].
  change 255 with (Z.ones 8). rewrite Z.land_ones by lia.
  apply Z.mod_pos_bound. lia.
Qed.

(** The checksum is a [uint32]. *)
Lemma ChecksumIEEE_range (data : string) : 0 <= crc32.ChecksumIEEE data < 2 ^ 32.
Proof.
  unfold crc32.ChecksumIEEE.
  apply lxor_range; [lia| |lia].
  apply crc32_simpleUpdate_range.
  change (Z.lxor 0 4294967295) with 4294967295. lia.
Qed.

(** The check value of CRC-32/IEEE. *)
Example ChecksumIEEE_check : crc32.ChecksumIEEE "123456789" = 0xcbf43926.
Proof. reflexivity. Qed.

Lemma length_append (s1 s2 : string) :
  String.length (s1 ++ s2) = (String.length s1 + String.length s2)%nat.
Proof. induction s1 as [|c s1 IH]; simpl; [reflexivity|now rewrite IH]. Qed.

Lemma hex_digits_length (n : nat) : forall v, String.length (hex_digits n v) = n.
Proof.
  induction n as [|n IH]; intros v; simpl; [reflexivity|].
  rewrite length_append, IH. simpl. lia.
Qed.

Lemma hexval_hexdigit (d : Z) : 0 <= d < 16 -> hexval (hexdigit d) = Some d.
Proof.
  intros H.
  assert (E : d = 0 \/ d = 1 \/ d = 2 \/ d = 3 \/ d = 4 \/ d = 5 \/ d = 6 \/ d = 7 \/
              d = 8 \/ d = 9 \/ d = 10 \/ d = 11 \/ d = 12 \/ d = 13 \/ d = 14 \/
              d = 15) by lia.
  repeat (destruct E as [->|E]; [reflexivity|]). subst d. reflexivity.
Qed.

Lemma parse_hex_from_app (s1 s2 : string) : forall acc,
  parse_hex_from acc (s1 ++ s2) =
  match parse_hex_from acc s1 with
  | Some a => parse_hex_from a s2
  | None => None
  end.
Proof.
  induction s1 as [|c s1 IH]; intros acc; simpl; [reflexivity|].
  destruct (hexval c); [apply IH|reflexivity].
Qed.

Lemma parse_hex_from_digits (n : nat) : forall acc v,
  parse_hex_from acc (hex_digits n v) = Some (acc * 16 ^ Z.of_nat n + v mod 16 ^ Z.of_nat n).
Proof.
  induction n as [|n IH]; intros acc v.
  - simpl. rewrite Z.mod_1_r. f_equal. lia.
  - cbn [hex_digits]. rewrite parse_hex_from_app, IH. cbn [parse_hex_from].
    rewrite hexval_hexdigit by (apply Z.mod_pos_bound; lia).
    f_equal. rewrite Nat2Z.inj_succ, Z.pow_succ_r by lia.
    rewrite (Z.rem_mul_r v 16 (16 ^ Z.of_nat n)) by lia. lia.
Qed.

(** Reading the tag back gives the number it was printed from. *)
Lemma parse_hex_Sprintf_08x (v : Z) :
  0 <= v < 2 ^ 32 -> parse_hex (Sprintf_08x v) = Some v.
Proof.
  intros H. unfold parse_hex, Sprintf_08x.
  rewrite parse_hex_from_digits. f_equal.
  change (16 ^ Z.of_nat 8) with (2 ^ 32). rewrite Z.mod_small; lia.
Qed.

Local Close Scope Z_scope.

(** ** The stream key of a create request *)

Lemma prefix_app (pre rest : string) : String.prefix pre (pre ++ rest) = true.
Proof.
  induction pre as [|c pre IH]; [destruct rest; reflexivity|].
  change (String c pre ++ rest) with (String c (pre ++ rest)). simpl.
  destruct (ascii_dec c c); [assumption|contradiction].
Qed.

Lemma substring_all (s : string) : substring 0 (String.length s) s = s.
Proof. induction s as [|c s IH]; simpl; [reflexivity|now rewrite IH]. Qed.

Lemma substring_skip (pre rest : string) (n : nat) :
  substring (String.length pre) n (pre ++ rest) = substring 0 n rest.
Proof.
  induction pre as [|c pre IH]; [reflexivity|].
  change (String c pre ++ rest) with (String c (pre ++ rest)). simpl.
  assumption.
Qed.

Lemma TrimPrefix_present (pre rest : string) : TrimPrefix (pre ++ rest) pre = rest.
Proof.
  unfold TrimPrefix, HasPrefix. rewrite prefix_app, substring_skip, length_append.
  replace (String.length pre + String.length rest - String.length pre)
    with (String.length rest) by lia.
  apply substring_all.
Qed.

Lemma TrimPrefix_absent (s pre : string) : HasPrefix s pre = false -> TrimPrefix s pre = s.
Proof. intros H. unfold TrimPrefix. now rewrite H. Qed.

Lemma schedules_restrict_none (P : Event -> bool) (t : Task) :
  occurrences P t = 0 -> schedules (restrict P t) = [[]].
Proof.
  induction t as [|e k IH|child IHc k IHk|]; simpl; intros H; try reflexivity.
  - destruct (P e); [discriminate|]. apply IH, H.
  - rewrite IHc, IHk by lia. reflexivity.
Qed.

Lemma startTask_no_onPublish (h : Handler.t) (resourceId : string)
    (ready : option ReadyFunc) (ended : option unit) :
  occurrences is_onPublish (startTask h resourceId ready ended) = 0.
Proof.
  unfold startTask, startDeferred, endTask.
  destruct (Handler.Start h) as [mimeTypes [serr|]]; simpl.
  - destruct ready as [ready|]; [|reflexivity].
    destruct (ready mimeTypes (Some serr)); reflexivity.
  - destruct (Handler.WaitForSessionEnd h) as [[e|]|];
      destruct ended, ready as [ready|]; simpl; try reflexivity;
      destruct (ready mimeTypes None); reflexivity.
Qed.

(** Whatever comes of it, a create request whose body can be read calls
    [onPublish] once, with the stream key it was served with. *)
Lemma serveCreate_onPublish (errorsAs : error -> option (nat * string))
    (s : WHIPServer) (w : ResponseWriter) (r : Request) (streamKey : string)
    (tr : list Event) :
  snd (Body r) = None ->
  In tr (schedules (snd (serveCreate errorsAs s w r streamKey))) ->
  List.filter is_onPublish tr = [EvOnPublish streamKey (NewGuid s)].
Proof.
  intros Hbody H. apply (schedules_restrict is_onPublish) in H. revert H.
  unfold serveCreate, handleNewWhipClient, createStream.
  destruct (Body r) as [sdpOffer berr]; simpl in Hbody; subst berr.
  generalize (startTask_no_onPublish (NewWHIPHandler s) (NewGuid s)
                (pub_ready (onPublish s streamKey (NewGuid s) (NewWHIPHandler s)))
                (pub_ended (onPublish s streamKey (NewGuid s) (NewWHIPHandler s)))).
  generalize (startTask (NewWHIPHandler s) (NewGuid s)
                (pub_ready (onPublish s streamKey (NewGuid s) (NewWHIPHandler s)))
                (pub_ended (onPublish s streamKey (NewGuid s) (NewWHIPHandler s)))).
  intros background Hbackground.
  destruct (onPublish s streamKey (NewGuid s) (NewWHIPHandler s))
    as [p ready ended [perr|]]; simpl.
  - intros [<-|[]]. reflexivity.
  - destruct (Handler.Init (NewWHIPHandler s) p sdpOffer) as [sdp [ierr|]]; simpl.
    + destruct ready; simpl; intros [<-|[]]; reflexivity.
    + rewrite (schedules_restrict_none _ _ Hbackground). simpl.
      intros [<-|[]]. reflexivity.
Qed.

(** C10: on POST /{app} the stream key handed to [onPublish] is the value
    of the Authorization header without a leading ["Bearer "]; the whole
    value when it does not start with ["Bearer "]; and the empty string when
    the header is absent. *)
Theorem postApp_stream_key (errorsAs : error -> option (nat * string))
    (s : WHIPServer) (w : ResponseWriter) (r : Request) (tr : list Event) :
  snd (Body r) = None ->
  In tr (schedules (snd (postApp errorsAs s w r))) ->
  (forall rest vs,
     Header r !! "Authorization" = Some (("Bearer " ++ rest) :: vs) ->
     List.filter is_onPublish tr = [EvOnPublish rest (NewGuid s)]) /\
  (forall v vs,
     Header r !! "Authorization" = Some (v :: vs) ->
     HasPrefix v "Bearer " = false ->
     List.filter is_onPublish tr = [EvOnPublish v (NewGuid s)]) /\
  (Header r !! "Authorization" = None ->
   List.filter is_onPublish tr = [EvOnPublish "" (NewGuid s)]).
Proof.
  intros Hbody H. unfold postApp in H.
  apply (serveCreate_onPublish _ _ _ _ _ _ Hbody) in H. rewrite H. clear H.
  unfold Header_Get.
  change (CanonicalMIMEHeaderKey "Authorization") with "Authorization".
  repeat split.
  - intros rest vs ->. now rewrite TrimPrefix_present.
  - intros v vs -> Hv. now rewrite TrimPrefix_absent.
  - intros ->. reflexivity.
Qed.

Lemma postApp_stream_key_witness :
  let s := Sample.remote None in
  let r := Sample.request (Some "Bearer abc") None "v=0" in
  let tr := hd [] (schedules (snd (postApp Sample.errorsAs s newResponseWriter r))) in
  List.filter is_onPublish tr = [EvOnPublish "abc" "WH_abc"].
Proof.
  intros s r tr.
  refine (proj1 (postApp_stream_key Sample.errorsAs s newResponseWriter r tr
                   eq_refl (or_introl eq_refl)) "abc" [] _).
  reflexivity.
Defined.

(** ** The response to a create request *)

Lemma string_forall_app (P : ascii -> bool) (s1 s2 : string) :
  string_forall P (s1 ++ s2) = string_forall P s1 && string_forall P s2.
Proof.
  induction s1 as [|c s1 IH]; [reflexivity|].
  change (String c s1 ++ s2) with (String c (s1 ++ s2)). simpl.
  now rewrite IH, andb_assoc.
Qed.

Lemma hexdigit_lower (d : Z) : (0 <= d < 16)%Z -> is_lower_hex (hexdigit d) = true.
Proof.
  intros H.
  assert (E : (d = 0 \/ d = 1 \/ d = 2 \/ d = 3 \/ d = 4 \/ d = 5 \/ d = 6 \/ d = 7 \/
               d = 8 \/ d = 9 \/ d = 10 \/ d = 11 \/ d = 12 \/ d = 13 \/ d = 14 \/
               d = 15)%Z) by lia.
  repeat (destruct E as [->|E]; [reflexivity|]). subst d. reflexivity.
Qed.

Lemma hex_digits_lower (n : nat) : forall v,
  string_forall is_lower_hex (hex_digits n v) = true.
Proof.
  induction n as [|n IH]; intros v; [reflexivity|].
  cbn [hex_digits]. rewrite string_forall_app, IH. cbn [string_forall andb].
  rewrite hexdigit_lower by (apply Z.mod_pos_bound; lia). reflexivity.
Qed.

(** C8: when [createStream] succeeds, the create request is answered with
    status 201, [Content-Type: application/sdp], a [Location] of
    [/{app}/{streamKey}/{resourceId}], an [ETag] that is the CRC-32 (IEEE) of
    the offer body in eight lowercase hexadecimal digits, the two CORS
    headers, and the answer as body.  Both POST routes are covered; they
    differ in where the stream key comes from. *)
Theorem create_response (errorsAs : error -> option (nat * string))
    (s : WHIPServer) (r : Request) (served : Outcome ResponseWriter * Task)
    (streamKey sdpOffer resourceId sdp : string) :
  (served = postApp errorsAs s newResponseWriter r /\
   streamKey = TrimPrefix (Header_Get (Header r) "Authorization") "Bearer ")
  \/ (served = postAppStreamKey errorsAs s newResponseWriter r /\
      streamKey = index (Vars r) "stream_key") ->
  Body r = (sdpOffer, None) ->
  fst (createStream s streamKey sdpOffer) = Returned (resourceId, sdp, None) ->
  exists w etag,
    fst served = Returned w /\
    rw_status w = Some StatusCreated /\
    Header_Get (rw_sent w) "Content-Type" = "application/sdp" /\
    Header_Get (rw_sent w) "Location"
      = "/" ++ index (Vars r) "app" ++ "/" ++ streamKey ++ "/" ++ resourceId /\
    Header_Get (rw_sent w) "ETag" = etag /\
    etag = Sprintf_08x (crc32.ChecksumIEEE sdpOffer) /\
    String.length etag = 8 /\
    string_forall is_lower_hex etag = true /\
    parse_hex etag = Some (crc32.ChecksumIEEE sdpOffer) /\
    Header_Get (rw_sent w) "Access-Control-Allow-Origin" = "*" /\
    Header_Get (rw_sent w) "Access-Control-Expose-Headers" = "Location, ETag" /\
    rw_body w = sdp.
Proof.
  intros Hroute Hbody Hcreate.
  assert (E : served = serveCreate errorsAs s newResponseWriter r streamKey).
  { destruct Hroute as [[-> ->]|[-> ->]]; reflexivity. }
  subst served. clear Hroute.
  unfold serveCreate, handleNewWhipClient. rewrite Hbody.
  destruct (createStream s streamKey sdpOffer) as [res t].
  simpl in Hcreate. subst res.
  eexists. exists (Sprintf_08x (crc32.ChecksumIEEE sdpOffer)).
  split; [reflexivity|].
  split; [reflexivity|].
  split; [reflexivity|].
  split; [reflexivity|].
  split; [reflexivity|].
  split; [reflexivity|].
  split; [apply hex_digits_length|].
  split; [apply hex_digits_lower|].
  split; [apply parse_hex_Sprintf_08x, ChecksumIEEE_range|].
  repeat split.
Qed.

Lemma create_response_witness :
  let s := Sample.remote None in
  let r := Sample.request (Some "Bearer abc") None "v=0" in
  exists w,
    fst (postApp Sample.errorsAs s newResponseWriter r) = Returned w /\
    rw_status w = Some 201 /\
    Header_Get (rw_sent w) "Location" = "/live/abc/WH_abc" /\
    Header_Get (rw_sent w) "ETag" = "e30cb5e2".
Proof.
  intros s r.
  destruct (create_response Sample.errorsAs s r _ "abc" "v=0" "WH_abc" "v=0 answer"
              (or_introl (conj eq_refl eq_refl)) eq_refl eq_refl)
    as (w & etag & Hw & Hstatus & _ & Hloc & Hetag & Hcrc & _).
  exists w. repeat split; try assumption.
  rewrite Hetag, Hcrc. reflexivity.
Defined.

(** ** The registry and the remaining endpoints *)

Lemma register_then_lookup (reg : gmap string (option Handler.t))
    (resourceId : string) (h : Handler.t) :
  apply_event reg (EvRegister resourceId h) !! resourceId = Some (Some h).
Proof. apply lookup_insert_eq. Qed.

Lemma remove_then_lookup (reg : gmap string (option Handler.t)) (resourceId : string) :
  apply_event reg (EvDelete resourceId) !! resourceId = None.
Proof. apply lookup_delete_eq. Qed.

Lemma NewWHIPServer_idle (rpc : IngressHandlerClient)
    (publish : string -> string -> Handler.t -> Published)
    (guid : string) (h : Handler.t) :
  IsIdle (NewWHIPServer rpc publish guid h) = true.
Proof. reflexivity. Qed.

(** The preflight answers: 204 with the methods of the endpoint. *)
Lemma preflight (r : Request) :
  rw_status (optionsApp newResponseWriter r) = Some StatusNoContent /\
  Header_Get (rw_sent (optionsApp newResponseWriter r)) "Access-Control-Allow-Methods"
    = "POST, OPTIONS" /\
  rw_status (optionsResource newResponseWriter r) = Some StatusNoContent /\
  Header_Get (rw_sent (optionsResource newResponseWriter r)) "Access-Control-Allow-Methods"
    = "PATCH, OPTIONS, DELETE".
Proof. repeat split. Qed.

Example TrimPrefix_samples :
  TrimPrefix "Bearer abc" "Bearer " = "abc" /\
  TrimPrefix "abc" "Bearer " = "abc" /\
  TrimPrefix "bearer abc" "Bearer " = "bearer abc" /\
  TrimPrefix "Bearer " "Bearer " = "" /\
  TrimPrefix "" "Bearer " = "".
Proof. repeat split. Qed.

Example CanonicalMIMEHeaderKey_samples :
  CanonicalMIMEHeaderKey "ETag" = "Etag" /\
  CanonicalMIMEHeaderKey "if-match" = "If-Match" /\
  CanonicalMIMEHeaderKey "Access-Control-Allow-Origin" = "Access-Control-Allow-Origin" /\
  CanonicalMIMEHeaderKey "not a token" = "not a token".
Proof. repeat split. Qed.

Example Sprintf_08x_samples :
  Sprintf_08x 0 = "00000000" /\
  Sprintf_08x 255 = "000000ff" /\
  Sprintf_08x 0xcbf43926 = "cbf43926" /\
  Sprintf_08x 0xffffffff = "ffffffff".
Proof. repeat split. Qed.

(** A session that starts and ends: two of its schedules, the callbacks in
    either order. *)
Example session_schedules :
  let h := Sample.handler None None in
  let s := Sample.server h (Some Sample.ready) (Some tt) in
  let trs := schedules (snd (createStream s "abc" "v=0")) in
  length trs = 10 /\
  In [EvOnPublish "abc" "WH_abc"; EvInit "v=0"; EvRegister "WH_abc" h; EvStart;
      EvLog "all tracks ready"; EvReady Sample.mimes None; EvSetMediaStatsGatherer 7;
      EvWaitForSessionEnd; EvDelete "WH_abc"; EvEnded None] trs /\
  In [EvOnPublish "abc" "WH_abc"; EvInit "v=0"; EvRegister "WH_abc" h; EvStart;
      EvLog "all tracks ready"; EvWaitForSessionEnd; EvDelete "WH_abc"; EvEnded None;
      EvReady Sample.mimes None; EvSetMediaStatsGatherer 7] trs.
Proof.
  intros h s trs. split; [reflexivity|].
  split; vm_compute; repeat (first [left; reflexivity|right]).
Qed.

(** * Further properties of the server *)

(** ** What [createStream] returns *)

(** X1: a return with a nil error carries the generated resource id and
    the answer of [h.Init], and happens only when [onPublish] and [h.Init]
    both succeeded; a return with an error carries two empty strings, and the
    error is the one of [onPublish] or of [h.Init].  The outcome of [h.Start]
    and of [h.WaitForSessionEnd] has no part in it. *)
Theorem createStream_result (s : WHIPServer) (streamKey sdpOffer : string)
    (resourceId sdp : string) (err : option error) :
  fst (createStream s streamKey sdpOffer) = Returned (resourceId, sdp, err) ->
  match err with
  | None =>
      resourceId = NewGuid s /\
      sdp = fst (negotiated s streamKey sdpOffer) /\
      pub_err (published s streamKey) = None /\
      snd (negotiated s streamKey sdpOffer) = None
  | Some e =>
      resourceId = "" /\ sdp = "" /\
      (pub_err (published s streamKey) = Some e \/
       pub_err (published s streamKey) = None /\
       snd (negotiated s streamKey sdpOffer) = Some e)
  end.
Proof.
  unfold negotiated, published, createStream.
  destruct (onPublish s streamKey (NewGuid s) (NewWHIPHandler s))
    as [p ready ended [perr|]]; simpl.
  - intros [= <- <- <-]. auto.
  - destruct (Handler.Init (NewWHIPHandler s) p sdpOffer) as [answer [ierr|]];
      simpl.
    + destruct ready; [|discriminate]. intros [= <- <- <-]. auto.
    + intros [= <- <- <-]. auto.
Qed.

Lemma createStream_result_witness :
  let s := Sample.server (Sample.handler None (Some (ErrOther 2)))
                         (Some Sample.ready) (Some tt) in
  "WH_abc" = NewGuid s /\ "v=0 answer" = fst (negotiated s "abc" "v=0").
Proof.
  intros s.
  destruct (createStream_result s "abc" "v=0" "WH_abc" "v=0 answer" None eq_refl)
    as (H1 & H2 & _).
  split; assumption.
Defined.

(** X2: when [onPublish] fails, nothing else happens: [h.Init] is not
    called, no callback is invoked, the registry is not touched, and the
    error of [onPublish] is returned. *)
Theorem authorization_failure_does_nothing (s : WHIPServer)
    (streamKey sdpOffer : string) (e : error) :
  pub_err (published s streamKey) = Some e ->
  createStream s streamKey sdpOffer =
    (Returned ("", "", Some e), Do (EvOnPublish streamKey (NewGuid s)) Ret) /\
  schedules (snd (createStream s streamKey sdpOffer)) =
    [[EvOnPublish streamKey (NewGuid s)]] /\
  forall reg tr, In tr (schedules (snd (createStream s streamKey sdpOffer))) ->
    run_registry reg tr = reg.
Proof.
  unfold published, createStream. intros H. rewrite H.
  repeat split. intros reg tr [<-|[]]. reflexivity.
Qed.

Lemma authorization_failure_does_nothing_witness :
  let s := NewWHIPServer (Sample.client None)
             (fun _ _ _ => mkPublished 0 None None (Some (ErrOther 9)))
             "WH_abc" (Sample.handler None None) in
  schedules (snd (createStream s "abc" "v=0")) = [[EvOnPublish "abc" "WH_abc"]].
Proof.
  intros s.
  exact (proj1 (proj2 (authorization_failure_does_nothing s "abc" "v=0"
                         (ErrOther 9) eq_refl))).
Defined.

(** ** The registry across a session *)

Lemma createStream_registry_actions (s : WHIPServer) (streamKey sdpOffer : string)
    (tr : list Event) :
  In tr (schedules (snd (createStream s streamKey sdpOffer))) ->
  List.filter is_registry tr = [] \/
  List.filter is_registry tr = [EvRegister (NewGuid s) (NewWHIPHandler s)] \/
  List.filter is_registry tr =
    [EvRegister (NewGuid s) (NewWHIPHandler s); EvDelete (NewGuid s)].
Proof.
  intros H. apply (schedules_restrict is_registry) in H.
  lifecycle_cases s streamKey sdpOffer.
  - pick_schedule H; auto.
  - destruct ready; pick_schedule H; auto.
  - destruct ready as [ready|]; [destruct (ready mimeTypes (Some serr))|];
      pick_schedule H; auto.
  - destruct (Handler.WaitForSessionEnd (NewWHIPHandler s)) as [[e|]|];
      destruct ended, ready as [ready|]; simpl in H;
      try destruct (ready mimeTypes None); pick_schedule H; auto.
Qed.

(** X3: in every schedule the registry actions of one call are an initial
    segment of "insert the new id, delete the new id": at most one insertion,
    at most one removal, the removal never before the insertion, and no
    action on another id. *)
Theorem registry_actions_of_a_session (s : WHIPServer) (streamKey sdpOffer : string)
    (tr : list Event) :
  In tr (schedules (snd (createStream s streamKey sdpOffer))) ->
  initial_segment (List.filter is_registry tr)
    [EvRegister (NewGuid s) (NewWHIPHandler s); EvDelete (NewGuid s)].
Proof.
  intros H.
  destruct (createStream_registry_actions _ _ _ _ H) as [E|[E|E]]; rewrite E;
    eexists; reflexivity.
Qed.

Lemma registry_actions_of_a_session_witness :
  let s := Sample.server (Sample.handler None None) (Some Sample.ready) (Some tt) in
  let tr := hd [] (schedules (snd (createStream s "abc" "v=0"))) in
  initial_segment (List.filter is_registry tr)
    [EvRegister "WH_abc" (Sample.handler None None); EvDelete "WH_abc"].
Proof.
  intros s tr.
  exact (registry_actions_of_a_session s "abc" "v=0" tr (or_introl eq_refl)).
Defined.

(** X4: a call of [createStream] leaves the entries of all other resource
    ids as they were, in every schedule. *)
Theorem createStream_keeps_other_sessions (s : WHIPServer)
    (streamKey sdpOffer : string) (reg : gmap string (option Handler.t))
    (tr : list Event) (other : string) :
  In tr (schedules (snd (createStream s streamKey sdpOffer))) ->
  other <> NewGuid s ->
  run_registry reg tr !! other = reg !! other.
Proof.
  intros H Hne. rewrite run_registry_filter.
  destruct (createStream_registry_actions _ _ _ _ H) as [E|[E|E]]; rewrite E;
    simpl.
  - reflexivity.
  - apply lookup_insert_ne. congruence.
  - rewrite lookup_delete_ne by congruence. apply lookup_insert_ne. congruence.
Qed.

Lemma createStream_keeps_other_sessions_witness :
  let h := Sample.handler None None in
  let s := Sample.server h (Some Sample.ready) (Some tt) in
  let tr := hd [] (schedules (snd (createStream s "abc" "v=0"))) in
  run_registry {[ "WH_old" := Some h ]} tr !! "WH_old"
  = ({[ "WH_old" := Some h ]} : gmap string (option Handler.t)) !! "WH_old".
Proof.
  intros h s tr.
  apply (createStream_keeps_other_sessions s "abc" "v=0" _ tr "WH_old"
           (or_introl eq_refl)).
  vm_compute. discriminate.
Defined.

(** X5: when the start phase succeeded and [h.WaitForSessionEnd] returned,
    every schedule ends with the registry it began with minus the session's
    id, whether or not [ready] and [ended] are nil. *)
Theorem session_end_cleanup (s : WHIPServer) (streamKey sdpOffer : string)
    (reg : gmap string (option Handler.t)) (tr : list Event) :
  start_succeeded s streamKey sdpOffer ->
  wait_returned s ->
  In tr (schedules (snd (createStream s streamKey sdpOffer))) ->
  run_registry reg tr = delete (NewGuid s) reg.
Proof.
  intros (Hp & Hi & Hs) [werr Hw] H.
  rewrite run_registry_filter.
  apply (schedules_restrict is_registry) in H.
  lifecycle_cases s streamKey sdpOffer; try discriminate.
  rewrite Hw in H.
  destruct werr, ended, ready as [ready|]; simpl in H;
    try destruct (ready mimeTypes None); pick_schedule H; rewrite H;
    apply delete_insert_eq.
Qed.

Lemma session_end_cleanup_witness :
  let s := Sample.server (Sample.handler None None) None None in
  let tr := hd [] (schedules (snd (createStream s "abc" "v=0"))) in
  run_registry ∅ tr = delete "WH_abc" (∅ : gmap string (option Handler.t)).
Proof.
  intros s tr.
  apply (session_end_cleanup s "abc" "v=0" ∅ tr).
  - repeat split.
  - exists None. reflexivity.
  - left. reflexivity.
Defined.

(** X6: while a started session waits for its end, it is in the registry:
    the server is not idle and [AssociateRelay] on its id reaches its handler
    and hands back the handler's answer. *)
Theorem running_session_is_reachable (s : WHIPServer) (streamKey sdpOffer : string)
    (tr : list Event) (kind : StreamKind) (token : string) (w : WriteCloser) :
  start_succeeded s streamKey sdpOffer ->
  Handler.WaitForSessionEnd (NewWHIPHandler s) = Blocks ->
  In tr (schedules (snd (createStream s streamKey sdpOffer))) ->
  handlers (after s tr) !! NewGuid s = Some (Some (NewWHIPHandler s)) /\
  IsIdle (after s tr) = false /\
  AssociateRelay (after s tr) (NewGuid s) kind token w =
    (Handler.AssociateRelay (NewWHIPHandler s) kind token w,
     [EvHandlerAssociateRelay kind token]).
Proof.
  intros (Hp & Hi & Hs) Hw H.
  assert (E : run_registry (handlers s) tr
              = <[NewGuid s := Some (NewWHIPHandler s)]> (handlers s)).
  { rewrite run_registry_filter.
    apply (schedules_restrict is_registry) in H.
    lifecycle_cases s streamKey sdpOffer; try discriminate.
    rewrite Hw in H.
    destruct ready as [ready|]; simpl in H;
      try destruct (ready mimeTypes None); pick_schedule H; rewrite H;
      reflexivity. }
  assert (L : handlers (after s tr) !! NewGuid s = Some (Some (NewWHIPHandler s))).
  { simpl. rewrite E. apply lookup_insert_eq. }
  split; [exact L|]. split.
  - unfold IsIdle. apply bool_decide_eq_false. intros Hsize.
    apply map_size_empty_iff in Hsize. rewrite Hsize in L.
    rewrite lookup_empty in L. discriminate.
  - apply relay_operations_when_present, L.
Qed.

Lemma running_session_is_reachable_witness :
  let h := Handler.mk (fun _ _ => ("v=0 answer", None)) (Sample.mimes, None)
                      Blocks (fun _ _ _ => Some (ErrOther 5)) in
  let s := Sample.server h (Some Sample.ready) (Some tt) in
  let tr := hd [] (schedules (snd (createStream s "abc" "v=0"))) in
  fst (AssociateRelay (after s tr) "WH_abc" "video" "token" 0) = Some (ErrOther 5).
Proof.
  intros h s tr.
  destruct (running_session_is_reachable s "abc" "v=0" tr "video" "token" 0)
    as (_ & _ & E).
  - repeat split.
  - reflexivity.
  - left. reflexivity.
  - exact (f_equal fst E).
Defined.

(** X7: a server that is idle when a session is created is idle again
    once the session has ended, and also once its start has failed with a
    non-nil [ready]. *)
Theorem idle_again_after_session (s : WHIPServer) (streamKey sdpOffer : string)
    (tr : list Event) :
  IsIdle s = true ->
  (start_succeeded s streamKey sdpOffer /\ wait_returned s) \/
  (start_failed s streamKey sdpOffer /\ pub_ready (published s streamKey) <> None) ->
  In tr (schedules (snd (createStream s streamKey sdpOffer))) ->
  IsIdle (after s tr) = true.
Proof.
  intros Hidle Hcase H.
  unfold IsIdle in *. apply bool_decide_eq_true in Hidle.
  apply map_size_empty_iff in Hidle.
  apply bool_decide_eq_true, map_size_empty_iff. simpl. rewrite Hidle.
  rewrite run_registry_filter.
  apply (schedules_restrict is_registry) in H.
  destruct Hcase as [[(Hp & Hi & Hs) [werr Hw]]|[(Hp & Hi & Hs) Hr]];
    lifecycle_cases s streamKey sdpOffer; try discriminate; try congruence.
  - rewrite Hw in H.
    destruct werr, ended, ready as [ready|]; simpl in H;
      try destruct (ready mimeTypes None); pick_schedule H; rewrite H;
      simpl; rewrite delete_insert_eq; apply delete_empty.
  - destruct ready as [ready|]; [|congruence].
    destruct (ready mimeTypes (Some serr)); pick_schedule H; rewrite H;
      simpl; rewrite delete_insert_eq; apply delete_empty.
Qed.

Lemma idle_again_after_session_witness :
  let s := Sample.server (Sample.handler None (Some (ErrOther 2)))
                         (Some Sample.ready) (Some tt) in
  let tr := hd [] (schedules (snd (createStream s "abc" "v=0"))) in
  IsIdle (after s tr) = true.
Proof.
  intros s tr.
  apply (idle_again_after_session s "abc" "v=0" tr).
  - reflexivity.
  - right. split; [repeat split|]; discriminate.
  - left. reflexivity.
Defined.

(** ** The stats gatherer *)

(** X8: [h.SetMediaStatsGatherer] is called only by the start goroutine,
    at most once, and exactly when [ready], called with the results of
    [h.Start], hands back a non-nil gatherer, which is the one attached.  What
    [ready(nil, err)] hands back after a failed negotiation is dropped. *)
Theorem stats_gatherer_attachment (s : WHIPServer) (streamKey sdpOffer : string)
    (tr : list Event) :
  In tr (schedules (snd (createStream s streamKey sdpOffer))) ->
  List.filter is_setStats tr =
  match pub_err (published s streamKey), snd (negotiated s streamKey sdpOffer),
        pub_ready (published s streamKey) with
  | None, None, Some cb =>
      match cb (fst (started s)) (snd (started s)) with
      | Some stats => [EvSetMediaStatsGatherer stats]
      | None => []
      end
  | _, _, _ => []
  end.
Proof.
  intros H. apply (schedules_restrict is_setStats) in H.
  lifecycle_cases s streamKey sdpOffer.
  - pick_schedule H; exact H.
  - destruct ready; pick_schedule H; exact H.
  - destruct ready as [ready|]; [destruct (ready mimeTypes (Some serr))|];
      pick_schedule H; exact H.
  - destruct (Handler.WaitForSessionEnd (NewWHIPHandler s)) as [[e|]|];
      destruct ended, ready as [ready|]; simpl in H;
      try destruct (ready mimeTypes None); pick_schedule H; exact H.
Qed.

Lemma stats_gatherer_attachment_witness :
  let s := Sample.server (Sample.handler None None) (Some Sample.ready) (Some tt) in
  let tr := hd [] (schedules (snd (createStream s "abc" "v=0"))) in
  List.filter is_setStats tr = [EvSetMediaStatsGatherer 7].
Proof.
  intros s tr.
  exact (stats_gatherer_attachment s "abc" "v=0" tr (or_introl eq_refl)).
Defined.

(** ** The error classifier *)

(** X9: on a response whose status line has not been sent, [handleError]
    does nothing for a nil error; for an error carrying a [psrpc.Error] it
    sends that error's status and, when the status admits a body, its text;
    for any other error it sends 500 and writes no body. *)
Theorem handleError_classification (errorsAs : error -> option (nat * string))
    (w : ResponseWriter) :
  rw_status w = None ->
  handleError errorsAs None w = w /\
  forall e,
    match errorsAs e with
    | Some (status, text) =>
        rw_status (handleError errorsAs (Some e) w) = Some status /\
        rw_sent (handleError errorsAs (Some e) w) = rw_header w /\
        rw_body (handleError errorsAs (Some e) w) =
          (if bodyAllowedForStatus status then rw_body w ++ text else rw_body w)
    | None =>
        rw_status (handleError errorsAs (Some e) w) = Some StatusInternalServerError /\
        rw_sent (handleError errorsAs (Some e) w) = rw_header w /\
        rw_body (handleError errorsAs (Some e) w) = rw_body w
    end.
Proof.
  intros Hw. split; [reflexivity|]. intros e. unfold handleError.
  destruct (errorsAs e) as [[status text]|].
  - unfold Write, WriteHeader. rewrite Hw. simpl.
    destruct (bodyAllowedForStatus status); repeat split.
  - unfold WriteHeader. rewrite Hw. repeat split.
Qed.

Lemma handleError_classification_witness :
  rw_status (handleError Sample.errorsAs (Some (ErrOther 3)) newResponseWriter)
    = Some 500 /\
  rw_body (handleError Sample.errorsAs (Some (ErrOther 3)) newResponseWriter) = "".
Proof.
  destruct (proj2 (handleError_classification Sample.errorsAs newResponseWriter
                     eq_refl) (ErrOther 3)) as (H1 & _ & H3).
  split; assumption.
Defined.

(** ** ICE restart and teardown *)

Lemma restart_request_tests (extract : string -> string * string * option error)
    (r : Request) (ufrag pwd : string) :
  restart_request extract r ufrag pwd ->
  String.eqb (Header_Get (Header r) "If-Match") "*" = true /\
  exists body, Body r = (body, None) /\ extract body = (ufrag, pwd, None) /\
               (String.eqb ufrag "" || String.eqb pwd "") = false.
Proof.
  intros (Hm & body & Hb & He & Hu & Hp).
  split; [now apply String.eqb_eq|].
  exists body. repeat split; try assumption.
  apply orb_false_intro; now apply String.eqb_neq.
Qed.

(** X10: a PATCH with [If-Match: *] whose body cannot be read, or cannot
    be parsed, or yields an empty username fragment or an empty password, is
    answered as [handleError] does for [ErrInvalidWHIPRestartRequest]; no RPC
    is made. *)
Theorem patchResource_invalid_request (errorsAs : error -> option (nat * string))
    (extract : string -> string * string * option error)
    (s : WHIPServer) (r : Request) :
  Header_Get (Header r) "If-Match" = "*" ->
  snd (Body r) <> None \/
  snd (extract (fst (Body r))) <> None \/
  fst (fst (extract (fst (Body r)))) = "" \/
  snd (fst (extract (fst (Body r)))) = "" ->
  fst (patchResource errorsAs extract s newResponseWriter r)
    = handleError errorsAs (Some ErrInvalidWHIPRestartRequest) corsWriter /\
  List.filter is_rpc (snd (patchResource errorsAs extract s newResponseWriter r)) = [] /\
  List.filter is_handleError (snd (patchResource errorsAs extract s newResponseWriter r))
    = [EvHandleError ErrInvalidWHIPRestartRequest].
Proof.
  intros Hm Hbad. apply String.eqb_eq in Hm.
  unfold patchResource. rewrite Hm. simpl.
  destruct (Body r) as [body [berr|]]; simpl in *; [repeat split|].
  destruct (extract body) as [[ufrag pwd] [xerr|]]; simpl in *; [repeat split|].
  destruct Hbad as [Hbad|[Hbad|[->| ->]]]; try congruence.
  - repeat split.
  - rewrite orb_true_r. repeat split.
Qed.

Lemma patchResource_invalid_request_witness :
  rw_status (fst (patchResource Sample.errorsAs Sample.extract (Sample.remote None)
                    newResponseWriter (Sample.request None (Some "*") "")))
  = Some 400.
Proof.
  rewrite (proj1 (patchResource_invalid_request Sample.errorsAs Sample.extract
                    (Sample.remote None) (Sample.request None (Some "*") "")
                    eq_refl (or_intror (or_intror (or_introl eq_refl))))).
  reflexivity.
Defined.

(** X11: a restart request that passes the tests makes exactly one RPC,
    [ICERestartWHIPResource], addressed by the resource id of the path and
    carrying the stream key of the path and the extracted credentials,
    whatever the client then answers. *)
Theorem patchResource_forwards_credentials (errorsAs : error -> option (nat * string))
    (extract : string -> string * string * option error)
    (s : WHIPServer) (r : Request) (ufrag pwd : string) :
  restart_request extract r ufrag pwd ->
  List.filter is_rpc (snd (patchResource errorsAs extract s newResponseWriter r))
  = [EvICERestartWHIPResource (index (Vars r) "resource_id")
       (index (Vars r) "stream_key") ufrag pwd].
Proof.
  intros H. apply restart_request_tests in H as (Hm & body & Hb & He & Hc).
  unfold patchResource. rewrite Hm, Hb, He, Hc.
  cbn -[Sprintf_08x crc32.ChecksumIEEE].
  destruct (ICERestartWHIPResource _ _ _ _ _ _) as [frag|e];
    [|destruct (decide (e = ErrNoResponse))]; reflexivity.
Qed.

Lemma patchResource_forwards_credentials_witness :
  List.filter is_rpc
    (snd (patchResource Sample.errorsAs Sample.extract (Sample.remote None)
            newResponseWriter (Sample.request None (Some "*") "a=ice-ufrag:x")))
  = [EvICERestartWHIPResource "WH_abc" "abc" "ufrag" "pwd"].
Proof.
  apply (patchResource_forwards_credentials Sample.errorsAs Sample.extract
           (Sample.remote None) (Sample.request None (Some "*") "a=ice-ufrag:x")
           "ufrag" "pwd").
  split; [reflexivity|].
  exists "a=ice-ufrag:x". repeat split; discriminate.
Defined.

(** X12: when the RPC of a restart request succeeds, the answer has status
    200, [Content-Type: application/trickle-ice-sdpfrag], an [ETag] that is
    the CRC-32 of the returned fragment in eight hexadecimal digits, and the
    fragment as body; [handleError] is not called. *)
Theorem patchResource_success (errorsAs : error -> option (nat * string))
    (extract : string -> string * string * option error)
    (s : WHIPServer) (r : Request) (ufrag pwd frag : string) :
  restart_request extract r ufrag pwd ->
  ICERestartWHIPResource (rpcClient s) (index (Vars r) "resource_id") ufrag pwd
    (index (Vars r) "resource_id") (index (Vars r) "stream_key") = RpcOk frag ->
  let w := fst (patchResource errorsAs extract s newResponseWriter r) in
  rw_status w = Some StatusOK /\
  Header_Get (rw_sent w) "Content-Type" = "application/trickle-ice-sdpfrag" /\
  Header_Get (rw_sent w) "ETag" = Sprintf_08x (crc32.ChecksumIEEE frag) /\
  Header_Get (rw_sent w) "Access-Control-Allow-Origin" = "*" /\
  rw_body w = frag /\
  List.filter is_handleError
    (snd (patchResource errorsAs extract s newResponseWriter r)) = [].
Proof.
  intros H Hrpc. apply restart_request_tests in H as (Hm & body & Hb & He & Hc).
  unfold patchResource. rewrite Hm, Hb, He, Hc.
  cbn -[Sprintf_08x crc32.ChecksumIEEE]. rewrite Hrpc.
  split; [reflexivity|].
  split; [reflexivity|].
  split; [reflexivity|].
  split; [reflexivity|].
  split; reflexivity.
Qed.

Lemma patchResource_success_witness :
  let w := fst (patchResource Sample.errorsAs Sample.extract (Sample.remote None)
                  newResponseWriter (Sample.request None (Some "*") "a=ice-ufrag:x")) in
  rw_status w = Some 200 /\ rw_body w = "a=ice-ufrag:x".
Proof.
  intros w.
  destruct (patchResource_success Sample.errorsAs Sample.extract (Sample.remote None)
              (Sample.request None (Some "*") "a=ice-ufrag:x") "ufrag" "pwd"
              "a=ice-ufrag:x") as (H1 & _ & _ & _ & H5 & _).
  - split; [reflexivity|].
    exists "a=ice-ufrag:x". repeat split; discriminate.
  - reflexivity.
  - split; assumption.
Defined.

(** X13: when the RPC of a restart request fails with an error other than
    [psrpc.ErrNoResponse], that error goes to [handleError] as it is. *)
Theorem patchResource_rpc_error (errorsAs : error -> option (nat * string))
    (extract : string -> string * string * option error)
    (s : WHIPServer) (r : Request) (ufrag pwd : string) (e : error) :
  restart_request extract r ufrag pwd ->
  ICERestartWHIPResource (rpcClient s) (index (Vars r) "resource_id") ufrag pwd
    (index (Vars r) "resource_id") (index (Vars r) "stream_key") = RpcErr e ->
  e <> ErrNoResponse ->
  fst (patchResource errorsAs extract s newResponseWriter r)
    = handleError errorsAs (Some e) corsWriter /\
  List.filter is_handleError
    (snd (patchResource errorsAs extract s newResponseWriter r)) = [EvHandleError e].
Proof.
  intros H Hrpc Hne. apply restart_request_tests in H as (Hm & body & Hb & He & Hc).
  unfold patchResource. rewrite Hm, Hb, He, Hc.
  cbn -[Sprintf_08x crc32.ChecksumIEEE]. rewrite Hrpc.
  rewrite decide_False by assumption. split; reflexivity.
Qed.

Lemma patchResource_rpc_error_witness :
  rw_status (fst (patchResource Sample.errorsAs Sample.extract
                    (Sample.remote (Some (ErrOther 4))) newResponseWriter
                    (Sample.request None (Some "*") "a=ice-ufrag:x")))
  = Some 500.
Proof.
  destruct (patchResource_rpc_error Sample.errorsAs Sample.extract
              (Sample.remote (Some (ErrOther 4)))
              (Sample.request None (Some "*") "a=ice-ufrag:x")
              "ufrag" "pwd" (ErrOther 4)) as [H _].
  - split; [reflexivity|].
    exists "a=ice-ufrag:x". repeat split; discriminate.
  - reflexivity.
  - discriminate.
  - exact (f_equal rw_status H).
Defined.

(** X14: DELETE always makes exactly one RPC, [DeleteWHIPResource],
    addressed by the resource id of the path.  When the RPC succeeds the
    handler writes neither status nor body and calls no [handleError]; when
    it fails with an error other than [psrpc.ErrNoResponse], that error goes
    to [handleError] as it is. *)
Theorem deleteResource_outcomes (errorsAs : error -> option (nat * string))
    (s : WHIPServer) (r : Request) :
  let resourceID := index (Vars r) "resource_id" in
  let streamKey := index (Vars r) "stream_key" in
  let err := DeleteWHIPResource (rpcClient s) resourceID resourceID streamKey in
  let c := deleteResource errorsAs s newResponseWriter r in
  List.filter is_rpc (snd c) = [EvDeleteWHIPResource resourceID streamKey] /\
  (err = None ->
   fst c = corsWriter /\ rw_status (fst c) = None /\ rw_body (fst c) = "" /\
   List.filter is_handleError (snd c) = []) /\
  (forall e, err = Some e -> e <> ErrNoResponse ->
   fst c = handleError errorsAs (Some e) corsWriter /\
   List.filter is_handleError (snd c) = [EvHandleError e]).
Proof.
  intros resourceID streamKey err c. subst c. unfold deleteResource.
  fold resourceID streamKey. fold err.
  split; [|split].
  - destruct (decide (err = Some ErrNoResponse)); [reflexivity|].
    destruct err; reflexivity.
  - intros ->. repeat split.
  - intros e -> Hne. rewrite decide_False by congruence. split; reflexivity.
Qed.

Lemma deleteResource_outcomes_witness :
  let c := deleteResource Sample.errorsAs (Sample.remote None) newResponseWriter
             (Sample.request None None "") in
  rw_status (fst c) = None /\ List.filter is_handleError (snd c) = [].
Proof.
  intros c.
  destruct (proj1 (proj2 (deleteResource_outcomes Sample.errorsAs (Sample.remote None)
                            (Sample.request None None ""))) eq_refl)
    as (_ & H2 & _ & H4).
  split; assumption.
Defined.

(** ** Create requests that fail, and the stream key of the path *)

(** X15: a create request whose body cannot be read is answered by
    [handleError] with the read error, and [onPublish] is not called; a
    create request on which [createStream] returns an error is answered by
    [handleError] with that error, on a response that carries none of the
    headers of a success, and nothing is registered.  Both POST routes behave
    so. *)
Theorem create_failure_response (errorsAs : error -> option (nat * string))
    (s : WHIPServer) (r : Request) (served : Outcome ResponseWriter * Task)
    (streamKey : string) :
  (served = postApp errorsAs s newResponseWriter r /\
   streamKey = TrimPrefix (Header_Get (Header r) "Authorization") "Bearer ")
  \/ (served = postAppStreamKey errorsAs s newResponseWriter r /\
      streamKey = index (Vars r) "stream_key") ->
  (forall e, snd (Body r) = Some e ->
     served = (Returned (handleError errorsAs (Some e) newResponseWriter),
               Do (EvHandleError e) Ret)) /\
  (forall resourceId sdp e,
     snd (Body r) = None ->
     fst (createStream s streamKey (fst (Body r))) = Returned (resourceId, sdp, Some e) ->
     fst served = Returned (handleError errorsAs (Some e) newResponseWriter) /\
     forall tr, In tr (schedules (snd served)) ->
       List.filter is_handleError tr = [EvHandleError e] /\
       List.filter is_registry tr = []).
Proof.
  intros Hroute.
  assert (E : served = serveCreate errorsAs s newResponseWriter r streamKey).
  { destruct Hroute as [[-> ->]|[-> ->]]; reflexivity. }
  subst served. clear Hroute.
  unfold serveCreate, handleNewWhipClient.
  destruct (Body r) as [sdpOffer berr]; simpl. split.
  - intros e ->. reflexivity.
  - intros resourceId sdp e ->. unfold createStream.
    destruct (onPublish s streamKey (NewGuid s) (NewWHIPHandler s))
      as [p ready ended [perr|]]; simpl.
    + intros [= <- <- <-]. split; [reflexivity|].
      intros tr [<-|[]]. split; reflexivity.
    + destruct (Handler.Init (NewWHIPHandler s) p sdpOffer) as [answer [ierr|]];
        simpl; [|discriminate].
      destruct ready; [|discriminate].
      intros [= <- <- <-]. split; [reflexivity|].
      intros tr [<-|[]]. split; reflexivity.
Qed.

Lemma create_failure_response_witness :
  let s := NewWHIPServer (Sample.client None)
             (fun _ _ _ => mkPublished 0 None None (Some ErrIngressNotFound))
             "WH_abc" (Sample.handler None None) in
  let r := Sample.request (Some "Bearer abc") None "v=0" in
  fst (postApp Sample.errorsAs s newResponseWriter r)
  = Returned (handleError Sample.errorsAs (Some ErrIngressNotFound) newResponseWriter).
Proof.
  intros s r.
  exact (proj1 (proj2 (create_failure_response Sample.errorsAs s r _ "abc"
                         (or_introl (conj eq_refl eq_refl)))
                  "" "" ErrIngressNotFound eq_refl eq_refl)).
Defined.

(** X16: on POST /{app}/{stream_key} the stream key handed to [onPublish]
    is the path segment, whatever the Authorization header holds. *)
Theorem postAppStreamKey_stream_key (errorsAs : error -> option (nat * string))
    (s : WHIPServer) (w : ResponseWriter) (r : Request) (tr : list Event) :
  snd (Body r) = None ->
  In tr (schedules (snd (postAppStreamKey errorsAs s w r))) ->
  List.filter is_onPublish tr
  = [EvOnPublish (index (Vars r) "stream_key") (NewGuid s)].
Proof.
  intros Hbody H. unfold postAppStreamKey in H.
  exact (serveCreate_onPublish _ _ _ _ _ _ Hbody H).
Qed.

Lemma postAppStreamKey_stream_key_witness :
  let s := Sample.remote None in
  let r := Sample.request (Some "Bearer other") None "v=0" in
  let tr := hd [] (schedules (snd (postAppStreamKey Sample.errorsAs s newResponseWriter r))) in
  List.filter is_onPublish tr = [EvOnPublish "abc" "WH_abc"].
Proof.
  intros s r tr.
  exact (postAppStreamKey_stream_key Sample.errorsAs s newResponseWriter r tr
           eq_refl (or_introl eq_refl)).
Defined.

(** ** Preflight, nil entries, entity tags *)

(** X17: the preflight answers have status 204 and no body.  The base
    endpoints allow POST and OPTIONS, announce [Accept-Post: application/sdp]
    and expose [Location, ETag]; the resource endpoint allows PATCH, OPTIONS
    and DELETE and sets neither [Accept-Post] nor the expose header.  Both
    allow every origin and every header. *)
Theorem preflight_responses (r : Request) :
  let base := optionsApp newResponseWriter r in
  let resource := optionsResource newResponseWriter r in
  (rw_status base = Some StatusNoContent /\ rw_body base = "" /\
   Header_Get (rw_sent base) "Access-Control-Allow-Origin" = "*" /\
   Header_Get (rw_sent base) "Access-Control-Allow-Headers" = "*" /\
   Header_Get (rw_sent base) "Access-Control-Allow-Methods" = "POST, OPTIONS" /\
   Header_Get (rw_sent base) "Accept-Post" = "application/sdp" /\
   Header_Get (rw_sent base) "Access-Control-Expose-Headers" = "Location, ETag") /\
  (rw_status resource = Some StatusNoContent /\ rw_body resource = "" /\
   Header_Get (rw_sent resource) "Access-Control-Allow-Origin" = "*" /\
   Header_Get (rw_sent resource) "Access-Control-Allow-Headers" = "*" /\
   Header_Get (rw_sent resource) "Access-Control-Allow-Methods"
     = "PATCH, OPTIONS, DELETE" /\
   rw_sent resource !! "Accept-Post" = None /\
   rw_sent resource !! "Access-Control-Expose-Headers" = None).
Proof. repeat split. Qed.

(** X18: a registry entry that holds a nil handler counts as missing:
    [AssociateRelay] fails with [ErrIngressNotFound], and neither it nor
    [DissociateRelay] nor [CloseHandler] calls anything. *)
Theorem nil_entry_counts_as_missing (s : WHIPServer) (resourceId : string)
    (kind : StreamKind) (token : string) (w : WriteCloser) :
  handlers s !! resourceId = Some None ->
  AssociateRelay s resourceId kind token w = (Some ErrIngressNotFound, []) /\
  DissociateRelay s resourceId kind = (tt, []) /\
  CloseHandler s resourceId = (tt, []).
Proof.
  intros H. unfold AssociateRelay, DissociateRelay, CloseHandler, lookupHandler.
  rewrite H. repeat split.
Qed.

Lemma nil_entry_counts_as_missing_witness :
  let s := mkServer (fun _ _ _ => mkPublished 0 None None None) (Sample.client None)
                    {[ "WH_nil" := None ]} "WH_abc" (Sample.handler None None) in
  AssociateRelay s "WH_nil" "video" "token" 0 = (Some ErrIngressNotFound, []).
Proof.
  intros s.
  exact (proj1 (nil_entry_counts_as_missing s "WH_nil" "video" "token" 0 eq_refl)).
Defined.

(** X19: the entity tag determines the checksum: two bodies get the same
    eight-digit tag only if their CRC-32 is the same. *)
Theorem etag_determines_checksum (a b : string) :
  Sprintf_08x (crc32.ChecksumIEEE a) = Sprintf_08x (crc32.ChecksumIEEE b) ->
  crc32.ChecksumIEEE a = crc32.ChecksumIEEE b.
Proof.
  intros H.
  pose proof (parse_hex_Sprintf_08x _ (ChecksumIEEE_range a)) as Ha.
  pose proof (parse_hex_Sprintf_08x _ (ChecksumIEEE_range b)) as Hb.
  rewrite H in Ha. rewrite Ha in Hb. now injection Hb.
Qed.

Lemma etag_determines_checksum_witness :
  crc32.ChecksumIEEE "v=0" = crc32.ChecksumIEEE "v=0".
Proof. exact (etag_determines_checksum "v=0" "v=0" eq_refl). Defined.

(** ** Negotiation comes first *)

(** X20: a session is registered exactly when [onPublish] and [h.Init]
    both succeeded, and [h.Init] is called strictly before the registration:
    nothing can find a session whose negotiation has not succeeded. *)
Theorem registration_needs_negotiation (s : WHIPServer) (streamKey sdpOffer : string)
    (tr : list Event) :
  In tr (schedules (snd (createStream s streamKey sdpOffer))) ->
  (count is_register tr = 1 <->
   pub_err (published s streamKey) = None /\
   snd (negotiated s streamKey sdpOffer) = None) /\
  count is_register tr <= 1 /\
  precedes is_init is_register tr.
Proof.
  intros H.
  pose proof (schedules_restrict (fun e => is_init e || is_register e) _ _ H) as H1.
  pose proof (schedules_count is_register _ _ H) as Hc. rewrite Hc. clear Hc H.
  assert (Hord : ordered is_init is_register false
                   (List.filter (fun e => is_init e || is_register e) tr) = true
                 /\ (occurrences is_register (snd (createStream s streamKey sdpOffer)) = 1 <->
                      pub_err (published s streamKey) = None /\
                      snd (negotiated s streamKey sdpOffer) = None)
                 /\ occurrences is_register (snd (createStream s streamKey sdpOffer)) <= 1).
  { assert (Hfin : forall (l : list Event) (n : nat) (A B : Prop),
              ordered is_init is_register false l = true ->
              (n = 1 /\ A /\ B) \/ (n = 0 /\ ~ (A /\ B)) ->
              ordered is_init is_register false l = true /\
              (n = 1 <-> A /\ B) /\ n <= 1).
    { intros l n A B Hl [(-> & HA & HB)|(-> & Hn)];
        (split; [exact Hl|]); (split; [|lia]); split; auto; try discriminate.
      intros HAB. contradiction. }
    lifecycle_cases s streamKey sdpOffer.
    - pick_schedule H1; rewrite H1. apply Hfin; [reflexivity|].
      right. split; [reflexivity|]. intros [? _]; discriminate.
    - destruct ready; pick_schedule H1; rewrite H1;
        (apply Hfin; [reflexivity|]; right; split; [reflexivity|];
         intros [_ ?]; discriminate).
    - destruct ready as [ready|]; [destruct (ready mimeTypes (Some serr))|];
        pick_schedule H1; rewrite H1;
        (apply Hfin; [reflexivity|]; left; repeat split).
    - destruct (Handler.WaitForSessionEnd (NewWHIPHandler s)) as [[e|]|];
        destruct ended, ready as [ready|]; simpl in H1;
        try destruct (ready mimeTypes None); pick_schedule H1; rewrite H1;
        (apply Hfin; [reflexivity|]; left; repeat split). }
  destruct Hord as (Hord & Hiff & Hle).
  split; [exact Hiff|]. split; [exact Hle|].
  apply precedes_by_projection, Hord.
Qed.

Lemma registration_needs_negotiation_witness :
  let s := Sample.server (Sample.handler None None) (Some Sample.ready) (Some tt) in
  let tr := hd [] (schedules (snd (createStream s "abc" "v=0"))) in
  count is_register tr = 1.
Proof.
  intros s tr.
  apply (proj1 (registration_needs_negotiation s "abc" "v=0" tr (or_introl eq_refl))).
  split; reflexivity.
Defined.

(** ** The two callbacks are not ordered *)

(** X21: after a successful start nothing orders [ready] before [ended]:
    the second goroutine is started before the deferred call of [ready] runs,
    so when [h.WaitForSessionEnd] returns there is a schedule in which
    [ended] is invoked first, beside the one in which [ready] is. *)
Theorem ended_may_precede_ready (s : WHIPServer) (streamKey sdpOffer : string)
    (cb : ReadyFunc) (werr : option error) :
  start_succeeded s streamKey sdpOffer ->
  pub_ready (published s streamKey) = Some cb ->
  pub_ended (published s streamKey) <> None ->
  Handler.WaitForSessionEnd (NewWHIPHandler s) = Returns werr ->
  (exists tr, In tr (schedules (snd (createStream s streamKey sdpOffer))) /\
     List.filter (fun e => is_ready e || is_ended e) tr
     = [EvEnded werr; EvReady (fst (started s)) None]) /\
  (exists tr, In tr (schedules (snd (createStream s streamKey sdpOffer))) /\
     List.filter (fun e => is_ready e || is_ended e) tr
     = [EvReady (fst (started s)) None; EvEnded werr]).
Proof.
  intros (Hp & Hi & Hs) Hr He Hw.
  lifecycle_cases s streamKey sdpOffer; try discriminate.
  subst ready. rewrite Hw. destruct ended as [[]|]; [|congruence]. clear He.
  split.
  - destruct werr, (cb mimeTypes None); eexists;
      (split; [simpl; left; reflexivity|reflexivity]).
  - exists ([EvOnPublish streamKey (NewGuid s); EvInit sdpOffer;
             EvRegister (NewGuid s) (NewWHIPHandler s); EvStart;
             EvLog "all tracks ready"; EvReady mimeTypes None]
            ++ match cb mimeTypes None with
               | Some stats => [EvSetMediaStatsGatherer stats]
               | None => []
               end
            ++ [EvWaitForSessionEnd; EvDelete (NewGuid s)]
            ++ match werr with
               | Some _ => [EvLog "WHIP session failed"]
               | None => []
               end
            ++ [EvEnded werr])%list.
    split.
    + destruct werr, (cb mimeTypes None); simpl;
        repeat (first [left; reflexivity|right]).
    + destruct werr, (cb mimeTypes None); reflexivity.
Qed.

Lemma ended_may_precede_ready_witness :
  let s := Sample.server (Sample.handler None None) (Some Sample.ready) (Some tt) in
  exists tr, In tr (schedules (snd (createStream s "abc" "v=0"))) /\
    List.filter (fun e => is_ready e || is_ended e) tr
    = [EvEnded None; EvReady Sample.mimes None].
Proof.
  intros s.
  refine (proj1 (ended_may_precede_ready s "abc" "v=0" Sample.ready None _ _ _ _)).
  - repeat split.
  - reflexivity.
  - discriminate.
  - reflexivity.
Defined.

(** ** The CORS header of the resource endpoints *)

Lemma WriteHeader_keeps_header (code : nat) (w : ResponseWriter) :
  rw_header (WriteHeader code w) = rw_header w.
Proof. unfold WriteHeader. destruct (rw_status w); reflexivity. Qed.

Lemma Write_keeps_header (data : string) (w : ResponseWriter) :
  rw_header (Write data w) = rw_header w.
Proof.
  unfold Write.
  pose proof (WriteHeader_keeps_header StatusOK w) as H.
  destruct (rw_status (WriteHeader StatusOK w)) as [code|]; [|exact H].
  destruct (bodyAllowedForStatus code); exact H.
Qed.

Lemma handleError_keeps_header (errorsAs : error -> option (nat * string))
    (err : option error) (w : ResponseWriter) :
  rw_header (handleError errorsAs err w) = rw_header w.
Proof.
  unfold handleError. destruct err as [e|]; [|reflexivity].
  destruct (errorsAs e) as [[status text]|].
  - now rewrite Write_keeps_header, WriteHeader_keeps_header.
  - apply WriteHeader_keeps_header.
Qed.

Lemma fst_emit (e : Event) (c : ResponseWriter * list Event) :
  fst (emit e c) = fst c.
Proof. reflexivity. Qed.

Lemma handleErrorOn_keeps_header (errorsAs : error -> option (nat * string))
    (err : option error) (c : ResponseWriter * list Event) :
  rw_header (fst (handleErrorOn errorsAs err c)) = rw_header (fst c).
Proof.
  destruct err as [e|]; [|reflexivity].
  apply handleError_keeps_header.
Qed.

(** X22: every answer of DELETE and of PATCH carries
    [Access-Control-Allow-Origin: *] in its header map, on the error paths as
    on the others. *)
Theorem resource_endpoints_allow_every_origin
    (errorsAs : error -> option (nat * string))
    (extract : string -> string * string * option error)
    (s : WHIPServer) (r : Request) :
  Header_Get (rw_header (fst (deleteResource errorsAs s newResponseWriter r)))
    "Access-Control-Allow-Origin" = "*" /\
  Header_Get (rw_header (fst (patchResource errorsAs extract s newResponseWriter r)))
    "Access-Control-Allow-Origin" = "*".
Proof.
  split.
  - unfold deleteResource. cbv zeta.
    rewrite handleErrorOn_keeps_header. reflexivity.
  - unfold patchResource. cbv zeta.
    destruct (String.eqb (Header_Get (Header r) "If-Match") "*");
      cbv beta iota delta [negb]; [|reflexivity].
    destruct (Body r) as [body [berr|]]; cbv beta iota;
      [rewrite handleErrorOn_keeps_header; reflexivity|].
    destruct (extract body) as [[ufrag pwd] [xerr|]]; cbv beta iota;
      [rewrite handleErrorOn_keeps_header; reflexivity|].
    destruct (String.eqb ufrag "" || String.eqb pwd ""); cbv beta iota;
      [rewrite handleErrorOn_keeps_header; reflexivity|].
    destruct (ICERestartWHIPResource _ _ _ _ _ _) as [frag|e]; cbv beta iota;
      [reflexivity|].
    destruct (decide (e = ErrNoResponse)); cbv beta iota;
      rewrite ?fst_emit, handleErrorOn_keeps_header; reflexivity.
Qed.

Lemma start_failure_cleanup_witness :
  let s := Sample.server (Sample.handler None (Some (ErrOther 2)))
                         (Some Sample.ready) (Some tt) in
  let tr := hd [] (schedules (snd (createStream s "abc" "v=0"))) in
  run_registry (handlers s) tr !! "WH_abc" = None /\ count is_ended tr = 0.
Proof.
  intros s tr.
  apply (start_failure_cleanup s "abc" "v=0" Sample.ready (handlers s) tr).
  - repeat split. discriminate.
  - reflexivity.
  - left. reflexivity.
Defined.

Lemma negotiation_failure_with_ready_witness :
  let s := Sample.server (Sample.handler (Some (ErrOther 1)) None)
                         (Some Sample.ready) (Some tt) in
  fst (createStream s "abc" "v=0") = Returned ("", "", Some (ErrOther 1)).
Proof.
  intros s.
  exact (proj1 (negotiation_failure_with_ready s "abc" "v=0" Sample.ready
                  (ErrOther 1) eq_refl eq_refl eq_refl)).
Defined.
